(** * ct_hammer: the orchestration core of the CT log stress test

    A shallow embedding of [trillian/integration/ct_hammer/main.go]:
    the temporal window calculator [notAfterForLog], the rate limiter
    constructor [newLimiter], the bias table built by [main], the per-log
    loop that prepares and launches one worker per configured log, and the
    aggregation of the workers' results into the process verdict.

    Go's [int64] arithmetic is written out on [Z] with its wrap-around;
    [time.Time] is the pair of seconds since January 1, year 1 and the
    nanosecond offset that the [time] package keeps; Go maps are [gmap]s. *)

From Stdlib Require Import ZArith Lia Ascii String.
From stdpp Require Import gmap strings list.

Local Open Scope Z_scope.

(** ** Go's 64-bit integers *)

Module GoInt.

(** An [int64] result: the mathematical value reduced to
    [-2^63 .. 2^63-1]. *)
Definition wrap64 (z : Z) : Z := (z + 2 ^ 63) mod 2 ^ 64 - 2 ^ 63.

Definition in_int64 (z : Z) : Prop := - 2 ^ 63 <= z < 2 ^ 63.

End GoInt.

Import GoInt.

(** ** The [time] package, as far as [main.go] uses it *)

Module GoTime.

(** [time.Duration]: a count of nanoseconds in an [int64]. *)
Definition Duration := Z.

Definition Nanosecond : Duration := 1.
Definition Second : Duration := 1000000000.
Definition Minute : Duration := 60 * Second.
Definition Hour : Duration := 60 * Minute.

(** [time.Time] as an instant: [sec] counts seconds since January 1,
    year 1 00:00:00 UTC (what [t.sec()] returns) and [nsec] the
    nanoseconds within that second (what [t.nsec()] returns).  The
    location pointer and the monotonic reading are left out: nothing in
    [main.go] compares or prints them. *)
Record Time := mkTime { sec : Z; nsec : Z }.

(** [time.Time{}], the zero value. *)
Definition zeroTime : Time := mkTime 0 0.

Definition unixToInternal : Z := (1969 * 365 + 1969 / 4 - 1969 / 100 + 1969 / 400) * 86400.
Definition internalToUnix : Z := - unixToInternal.

(** [func (t Time) IsZero() bool] *)
Definition IsZero (t : Time) : bool := (sec t =? 0) && (nsec t =? 0).

(** [func (t Time) Add(d Duration) Time] *)
Definition Add (t : Time) (d : Duration) : Time :=
  let dsec := Z.quot d 1000000000 in
  let n := nsec t + Z.rem d 1000000000 in
  if 1000000000 <=? n then mkTime (wrap64 (sec t + wrap64 (dsec + 1))) (n - 1000000000)
  else if n <? 0 then mkTime (wrap64 (sec t + wrap64 (dsec - 1))) (n + 1000000000)
  else mkTime (wrap64 (sec t + dsec)) n.

(** [func Unix(sec int64, nsec int64) Time] *)
Definition Unix (s n : Z) : Time :=
  let '(s1, n1) :=
    if (n <? 0) || (1000000000 <=? n) then
      let q := Z.quot n 1000000000 in
      let s' := wrap64 (s + q) in
      let n' := wrap64 (n - wrap64 (q * 1000000000)) in
      if n' <? 0 then (wrap64 (s' - 1), wrap64 (n' + 1000000000)) else (s', n')
    else (s, n) in
  mkTime (wrap64 (s1 + unixToInternal)) n1.

(** [func (t Time) UnixNano() int64]: the multiplication and the sum are
    [int64] operations. *)
Definition UnixNano (t : Time) : Z :=
  wrap64 (wrap64 (wrap64 (sec t + internalToUnix) * 1000000000) + nsec t).

(** The instant a [Time] denotes, in nanoseconds since the Unix epoch,
    as a mathematical integer. *)
Definition instant (t : Time) : Z :=
  (sec t - unixToInternal) * 1000000000 + nsec t.

(** The values [time.Unix], [time.Now] and [Add] produce: nanoseconds
    within the second, seconds within [int64]. *)
Definition normal (t : Time) : Prop :=
  0 <= nsec t < 1000000000 /\ in_int64 (sec t).

End GoTime.

Import GoTime.

(** ** Errors *)

(** [google.protobuf.Timestamp] *)
Record Timestamp := mkTimestamp { Seconds : Z; Nanos : Z }.

(** The [error] values that reach [main]: the four failures of
    [ptypes.Timestamp], [fmt.Errorf("...: %v", err)] wrappers, and the
    errors of the other packages, kept as their message. *)
Inductive error : Type :=
| ErrNilTimestamp
| ErrTimestampBefore (ts : Timestamp)
| ErrTimestampAfter (ts : Timestamp)
| ErrTimestampNanos (ts : Timestamp)
| Errorf (msg : string) (cause : error)
| ErrOther (msg : string).

Inductive result (A : Type) : Type :=
| Ok (a : A)
| Err (e : error).
Arguments Ok {A} a.
Arguments Err {A} e.

(** ** [ptypes.Timestamp] *)

Module ptypes.

(** Seconds field of the earliest valid Timestamp:
    [time.Date(1, 1, 1, 0, 0, 0, 0, time.UTC).Unix()]. *)
Definition minValidSeconds : Z := -62135596800.
(** Seconds field just after the latest valid Timestamp:
    [time.Date(10000, 1, 1, 0, 0, 0, 0, time.UTC).Unix()]. *)
Definition maxValidSeconds : Z := 253402300800.

Definition validateTimestamp (ts : option Timestamp) : option error :=
  match ts with
  | None => Some ErrNilTimestamp
  | Some ts =>
      if Seconds ts <? minValidSeconds then Some (ErrTimestampBefore ts)
      else if maxValidSeconds <=? Seconds ts then Some (ErrTimestampAfter ts)
      else if (Nanos ts <? 0) || (1000000000 <=? Nanos ts) then Some (ErrTimestampNanos ts)
      else None
  end.

(** [func Timestamp(ts *tspb.Timestamp) (time.Time, error)]: the time is
    returned whatever the validation says. *)
Definition Timestamp (ts : option Timestamp) : Time * option error :=
  let t := match ts with
           | None => Unix 0 0
           | Some ts => Unix (Seconds ts) (Nanos ts)
           end in
  (t, validateTimestamp ts).

End ptypes.

(** ** [configpb.LogConfig] *)

Record LogConfig := mkLogConfig {
  Prefix : string;
  PublicKey : list Z;
  ExpectedMergeDelaySec : Z;
  NotAfterStart : option Timestamp;
  NotAfterLimit : option Timestamp
}.

(** ** [notAfterForLog] *)

(** [now] is what [time.Now()] returns when the first branch calls it. *)
Definition notAfterForLog (now : Time) (c : LogConfig) : result Time :=
  match NotAfterStart c, NotAfterLimit c with
  | None, None => Ok (Add now (24 * Hour))
  | Some _, _ =>
      let '(start, err) := ptypes.Timestamp (NotAfterStart c) in
      match err with
      | Some err => Err (Errorf "failed to parse NotAfterStart" err)
      | None =>
          match NotAfterLimit c with
          | None => Ok (Add start (24 * Hour))
          | Some _ =>
              let '(limit, err) := ptypes.Timestamp (NotAfterLimit c) in
              match err with
              | Some err => Err (Errorf "failed to parse NotAfterLimit" err)
              | None =>
                  Ok (Unix 0 (wrap64 (wrap64 (Z.quot (wrap64 (UnixNano limit - UnixNano start)) 2)
                                      + UnixNano start)))
              end
          end
      end
  | None, Some _ =>
      let '(limit, err) := ptypes.Timestamp (NotAfterLimit c) in
      match err with
      | Some err => Err (Errorf "failed to parse NotAfterLimit" err)
      | None => Ok (Add limit (-1 * Hour))
      end
  end.

(** ** [newLimiter] *)

(** A [*ratelimiter.Limiter], known by the rate it was made with:
    [ratelimiter.NewLimiter(rate)]. *)
Inductive Limiter : Type :=
| NewLimiter (rate : Z).

(** [integration.Limiter] is an interface; [None] is its [nil]. *)
Definition newLimiter (rate : Z) : option Limiter :=
  if rate <=? 0 then None else Some (NewLimiter rate).

(** ** Command-line flags *)

Record Flags := mkFlags {
  banner : bool;
  httpServers : string;
  testDir : string;
  leafNotAfter : string;
  metricsEndpoint : string;
  seed : Z;
  logConfig : string;
  mmd : Duration;
  operations : Z;
  minGetEntries : Z;
  maxGetEntries : Z;
  oversizedGetEntries : bool;
  maxParallelChains : Z;
  limit : Z;
  ignoreErrors : bool;
  maxRetry : Duration;
  addChainBias : Z;
  addPreChainBias : Z;
  getSTHBias : Z;
  getSTHConsistencyBias : Z;
  getProofByHashBias : Z;
  getEntriesBias : Z;
  getRootsBias : Z;
  getEntryAndProofBias : Z;
  invalidChance : Z
}.

(** The defaults of the [flag] declarations. *)
Definition defaultFlags : Flags := {|
  banner := true;
  httpServers := "localhost:8092";
  testDir := "testdata";
  leafNotAfter := "";
  metricsEndpoint := "";
  seed := -1;
  logConfig := "";
  mmd := 2 * Minute;
  operations := 2 ^ 64 - 1;
  minGetEntries := 1;
  maxGetEntries := 500;
  oversizedGetEntries := false;
  maxParallelChains := 2;
  limit := 0;
  ignoreErrors := false;
  maxRetry := 60 * Second;
  addChainBias := 20;
  addPreChainBias := 20;
  getSTHBias := 2;
  getSTHConsistencyBias := 2;
  getProofByHashBias := 2;
  getEntriesBias := 2;
  getRootsBias := 1;
  getEntryAndProofBias := 0;
  invalidChance := 10
|}.

(** ** What [main] hands to a worker *)

(** [ctfe.EntrypointName] is a string type. *)
Definition EntrypointName := string.

(** The eight [ctfe] constants that key the bias maps.  They are declared
    in package [ctfe]; [main.go] only names them, so they are taken as
    given.  Go rejects a map literal with a repeated constant key, so a
    program that compiles has them pairwise distinct ([distinct_names]
    below). *)
Record Entrypoints := mkEntrypoints {
  AddChainName : EntrypointName;
  AddPreChainName : EntrypointName;
  GetSTHName : EntrypointName;
  GetSTHConsistencyName : EntrypointName;
  GetProofByHashName : EntrypointName;
  GetEntriesName : EntrypointName;
  GetRootsName : EntrypointName;
  GetEntryAndProofName : EntrypointName
}.

Definition all_names (E : Entrypoints) : list EntrypointName :=
  [AddChainName E; AddPreChainName E; GetSTHName E; GetSTHConsistencyName E;
   GetProofByHashName E; GetEntriesName E; GetRootsName E; GetEntryAndProofName E].

Definition distinct_names (E : Entrypoints) : Prop := NoDup (all_names E).

(** [integration.HammerBias] (its exported fields). *)
Record HammerBias := mkHammerBias {
  Bias : gmap string Z;
  InvalidChance : gmap string Z
}.

(** [ct.ASN1Cert]: the DER bytes. *)
Definition ASN1Cert := list Z.

(** A [crypto.Signer], known by the private key it holds. *)
Inductive Signer : Type :=
| mkSigner (key : list Z).

(** An [integration.ClientPool], known by the arguments
    [integration.NewRandomPool] made it from. *)
Inductive ClientPool : Type :=
| RandomPool (servers : string) (pubKey : list Z) (prefix : string).

(** An [integration.ChainGenerator], known by the arguments
    [integration.NewSyntheticChainGenerator] made it from. *)
Inductive ChainGenerator : Type :=
| SyntheticChainGenerator (chain : list ASN1Cert) (signer : option Signer) (notAfter : Time).

Inductive MetricFactory : Type :=
| PrometheusMetricFactory
| InertMetricFactory.

(** [integration.HammerConfig], with the fields [main] sets. *)
Record HammerConfig := mkHammerConfig {
  LogCfg : LogConfig;
  MetricFactory_ : MetricFactory;
  MMD : Duration;
  ChainGenerator_ : ChainGenerator;
  ClientPool_ : ClientPool;
  EPBias : HammerBias;
  MinGetEntries : Z;
  MaxGetEntries : Z;
  OversizedGetEntries : bool;
  Operations : Z;
  Limiter_ : option Limiter;
  MaxParallelChains : Z;
  IgnoreErrors : bool;
  MaxRetryDuration : Duration
}.

Definition generatorNotAfter (g : ChainGenerator) : Time :=
  match g with SyntheticChainGenerator _ _ t => t end.

(** ** The world outside [main.go] *)

(** The clock, the file system, and the packages [main] calls into. *)
Record World := mkWorld {
  (** [time.Now()] where the seed is drawn *)
  clockAtSeed : Time;
  (** [time.Now()] inside [notAfterForLog] for the log at index [i] *)
  clockAtLog : nat -> Time;
  (** [time.Parse(time.RFC3339, s)] *)
  parseRFC3339 : string -> result Time;
  (** [ctfe.LogConfigFromFile] *)
  LogConfigFromFile : string -> result (list LogConfig);
  (** [integration.GetChain] *)
  GetChain : string -> string -> result (list ASN1Cert);
  (** [integration.MakeSigner] *)
  MakeSigner : string -> result Signer;
  (** the error of [integration.NewRandomPool], if any *)
  NewRandomPoolErr : string -> list Z -> string -> option error;
  (** the error of [integration.NewSyntheticChainGenerator], if any *)
  NewSyntheticChainGeneratorErr : list ASN1Cert -> option Signer -> Time -> option error;
  (** what [integration.HammerCTLog] returns for a worker that returns *)
  HammerCTLog : HammerConfig -> option error;
  (** the [ctfe] entrypoint names *)
  names : Entrypoints
}.

(** ** What a run does that can be observed *)

(** The local [result] struct of [main]: one worker's outcome. *)
Record WorkerResult := mkWorkerResult {
  prefix : string;
  err : option error
}.

Inductive Event : Type :=
| PrintSeed (s : Z)                          (* fmt.Printf of the seed *)
| RandSeed (s : Z)                           (* rand.Seed *)
| WarnNoCertGeneration                       (* glog.Warningf, add-[pre-]chain disabled *)
| ServeMetrics (endpoint : string)           (* go server.ListenAndServe() *)
| PrintBanner                                (* the banner *)
| CallNotAfterForLog (c : LogConfig)         (* a call of notAfterForLog *)
| Go (cfg : HammerConfig)                    (* the go statement that starts a worker *)
| InfoCompleted (nlogs : nat)                (* glog.Infof, completed tests *)
| ErrorFailed (prefix : string) (e : error)  (* glog.Errorf, one failing log *)
| InfoNoErrors.                              (* glog.Info, no errors *)

(** The [glog.Exit] and [glog.Exitf] call sites: the process ends with
    status 1. *)
Inductive Fatal : Type :=
| NoLogConfig
| ReadLogConfigFailed (e : error)
| LoadCertificateFailed (e : error)
| RetrieveSignerFailed (e : error)
| ParseLeafNotAfterFailed (e : error)
| CreateClientPoolFailed (e : error)
| DetermineNotAfterFailed (prefix : string) (e : error)
| BuildChainGeneratorFailed (e : error)
| NonZeroErrorCount (errCount : Z).

(** ** A monad for [main]: a trace of events, and [glog.Exit] *)

Inductive Outcome (A : Type) : Type :=
| Return (a : A)
| Exit (f : Fatal).
Arguments Return {A} a.
Arguments Exit {A} f.

Definition M (A : Type) : Type := list Event -> Outcome A * list Event.

Definition ret {A} (a : A) : M A := fun tr => (Return a, tr).

Definition bind {A B} (m : M A) (k : A -> M B) : M B :=
  fun tr =>
    match m tr with
    | (Return a, tr') => k a tr'
    | (Exit f, tr') => (Exit f, tr')
    end.

Definition emit (e : Event) : M unit := fun tr => (Return tt, tr ++ [e]).

Definition exit {A} (f : Fatal) : M A := fun tr => (Exit f, tr).

(** [v, err := call(); if err != nil { glog.Exitf(...) }] *)
Definition orExit {A} (r : result A) (f : error -> Fatal) : M A :=
  match r with
  | Ok a => ret a
  | Err e => exit (f e)
  end.

(** [err := call(); if err != nil { glog.Exitf(...) }] *)
Definition checkErr (e : option error) (f : error -> Fatal) : M unit :=
  match e with
  | None => ret tt
  | Some e => exit (f e)
  end.

Notation "'run' x <- m 'in' k" := (bind m (fun x => k))
  (at level 10, x name, m at level 200, k at level 200).
Notation "'exec' m 'in' k" := (bind m (fun _ => k))
  (at level 10, m at level 200, k at level 200).

(** ** [main] *)

Section Main.

Context (W : World).

(** The [integration.HammerBias] literal, from the flag values current
    when it is built. *)
Definition biasTable (f : Flags) : HammerBias :=
  let E := names W in
  {| Bias := list_to_map
       [(AddChainName E, addChainBias f);
        (AddPreChainName E, addPreChainBias f);
        (GetSTHName E, getSTHBias f);
        (GetSTHConsistencyName E, getSTHConsistencyBias f);
        (GetProofByHashName E, getProofByHashBias f);
        (GetEntriesName E, getEntriesBias f);
        (GetRootsName E, getRootsBias f);
        (GetEntryAndProofName E, getEntryAndProofBias f)];
     InvalidChance := list_to_map
       [(AddChainName E, invalidChance f);
        (AddPreChainName E, invalidChance f);
        (GetSTHName E, 0);
        (GetSTHConsistencyName E, invalidChance f);
        (GetProofByHashName E, invalidChance f);
        (GetEntriesName E, invalidChance f);
        (GetRootsName E, 0);
        (GetEntryAndProofName E, 0)] |}.

(** [*addChainBias = 0; *addPreChainBias = 0] *)
Definition disableAddChain (f : Flags) : Flags :=
  {| banner := banner f; httpServers := httpServers f; testDir := testDir f;
     leafNotAfter := leafNotAfter f; metricsEndpoint := metricsEndpoint f;
     seed := seed f; logConfig := logConfig f; mmd := mmd f;
     operations := operations f; minGetEntries := minGetEntries f;
     maxGetEntries := maxGetEntries f; oversizedGetEntries := oversizedGetEntries f;
     maxParallelChains := maxParallelChains f; limit := limit f;
     ignoreErrors := ignoreErrors f; maxRetry := maxRetry f;
     addChainBias := 0;
     addPreChainBias := 0;
     getSTHBias := getSTHBias f; getSTHConsistencyBias := getSTHConsistencyBias f;
     getProofByHashBias := getProofByHashBias f; getEntriesBias := getEntriesBias f;
     getRootsBias := getRootsBias f; getEntryAndProofBias := getEntryAndProofBias f;
     invalidChance := invalidChance f |}.

(** The seed given to [rand.Seed]. *)
Definition effectiveSeed (f : Flags) : Z :=
  if seed f =? -1 then Z.land (UnixNano (clockAtSeed W)) 4294967295 else seed f.

(** The test data: the leaf chain and the signer, and the flags after
    the [else] branch has cleared the two add biases. *)
Definition loadTestData (f : Flags) : M (list ASN1Cert * option Signer * Flags) :=
  if String.eqb (testDir f) "" then
    exec emit WarnNoCertGeneration in
    ret ([], None, disableAddChain f)
  else
    run leafChain <- orExit (GetChain W (testDir f) "leaf01.chain") LoadCertificateFailed in
    run signer <- orExit (MakeSigner W (testDir f)) RetrieveSignerFailed in
    ret (leafChain, Some signer, f).

(** [notAfterOverride]: the zero [time.Time] unless the flag is set. *)
Definition parseOverride (f : Flags) : M Time :=
  if String.eqb (leafNotAfter f) "" then ret zeroTime
  else orExit (parseRFC3339 W (leafNotAfter f)) ParseLeafNotAfterFailed.

Definition metricFactory (f : Flags) : M MetricFactory :=
  if String.eqb (metricsEndpoint f) "" then ret InertMetricFactory
  else
    exec emit (ServeMetrics (metricsEndpoint f)) in
    ret PrometheusMetricFactory.

(** [mmd := *mmd; if emd := c.ExpectedMergeDelaySec; emd != 0 { ... }] *)
Definition logMMD (f : Flags) (c : LogConfig) : Duration :=
  if ExpectedMergeDelaySec c =? 0 then mmd f
  else wrap64 (Second * ExpectedMergeDelaySec c).

(** The [integration.HammerConfig] literal. *)
Definition workerConfig (f : Flags) (c : LogConfig) (mf : MetricFactory) (mmd : Duration)
    (generator : ChainGenerator) (pool : ClientPool) (bias : HammerBias) : HammerConfig :=
  {| LogCfg := c;
     MetricFactory_ := mf;
     MMD := mmd;
     ChainGenerator_ := generator;
     ClientPool_ := pool;
     EPBias := bias;
     MinGetEntries := minGetEntries f;
     MaxGetEntries := maxGetEntries f;
     OversizedGetEntries := oversizedGetEntries f;
     Operations := operations f;
     Limiter_ := newLimiter (limit f);
     MaxParallelChains := maxParallelChains f;
     IgnoreErrors := ignoreErrors f;
     MaxRetryDuration := maxRetry f |}.

(** One iteration of [for _, c := range cfg], for the log at index [i]:
    everything up to and including the [go] statement. *)
Definition launchLog (f : Flags) (leafChain : list ASN1Cert) (signer : option Signer)
    (notAfterOverride : Time) (bias : HammerBias) (mf : MetricFactory)
    (i : nat) (c : LogConfig) : M unit :=
  exec checkErr (NewRandomPoolErr W (httpServers f) (PublicKey c) (Prefix c)) CreateClientPoolFailed in
  let pool := RandomPool (httpServers f) (PublicKey c) (Prefix c) in
  let mmd := logMMD f c in
  run notAfter <-
    (if IsZero notAfterOverride then
       exec emit (CallNotAfterForLog c) in
       orExit (notAfterForLog (clockAtLog W i) c) (DetermineNotAfterFailed (Prefix c))
     else ret notAfterOverride) in
  exec checkErr (NewSyntheticChainGeneratorErr W leafChain signer notAfter) BuildChainGeneratorFailed in
  let generator := SyntheticChainGenerator leafChain signer notAfter in
  let cfg := workerConfig f c mf mmd generator pool bias in
  emit (Go cfg).

(** [for _, c := range cfg { ... }], from index [i] on. *)
Fixpoint launchAll (f : Flags) (leafChain : list ASN1Cert) (signer : option Signer)
    (notAfterOverride : Time) (bias : HammerBias) (mf : MetricFactory)
    (i : nat) (cfg : list LogConfig) : M unit :=
  match cfg with
  | [] => ret tt
  | c :: rest =>
      exec launchLog f leafChain signer notAfterOverride bias mf i c in
      launchAll f leafChain signer notAfterOverride bias mf (S i) rest
  end.

(** The local variables of [main] when the loop over the logs begins. *)
Record Prepared := mkPrepared {
  pCfg : list LogConfig;
  pLeafChain : list ASN1Cert;
  pSigner : option Signer;
  pFlags : Flags;
  pNotAfterOverride : Time;
  pBias : HammerBias;
  pMetricFactory : MetricFactory
}.

(** [main] up to the loop over the logs: the flags, the seed, the log
    config, the test data, the override, the bias table, the metric
    factory and the banner. *)
Definition setupPhase (f : Flags) : M Prepared :=
  exec (if String.eqb (logConfig f) "" then exit NoLogConfig else ret tt) in
  let seed := effectiveSeed f in
  exec emit (PrintSeed seed) in
  exec emit (RandSeed seed) in
  run cfg <- orExit (LogConfigFromFile W (logConfig f)) ReadLogConfigFailed in
  run td <- loadTestData f in
  let '(leafChain, signer, f) := td in
  run notAfterOverride <- parseOverride f in
  let bias := biasTable f in
  run mf <- metricFactory f in
  exec (if banner f then emit PrintBanner else ret tt) in
  ret (mkPrepared cfg leafChain signer f notAfterOverride bias mf).

(** [main] up to [wg.Wait()]: the set-up, then the loop; returns
    [len(cfg)]. *)
Definition launchPhase (f : Flags) : M nat :=
  run p <- setupPhase f in
  exec launchAll (pFlags p) (pLeafChain p) (pSigner p) (pNotAfterOverride p)
         (pBias p) (pMetricFactory p) 0 (pCfg p) in
  ret (length (pCfg p)).

(** [for e := range results { ... }]: the error count so far, an [int]. *)
Fixpoint countErrors (errCount : Z) (received : list WorkerResult) : M Z :=
  match received with
  | [] => ret errCount
  | e :: rest =>
      match err e with
      | Some x =>
          exec emit (ErrorFailed (prefix e) x) in
          countErrors (wrap64 (errCount + 1)) rest
      | None => countErrors errCount rest
      end
  end.

(** [main] after [wg.Wait()] has returned: [received] is what the
    closed [results] channel yields, in order. *)
Definition collectPhase (nlogs : nat) (received : list WorkerResult) : M unit :=
  exec emit (InfoCompleted nlogs) in
  run errCount <- countErrors 0 received in
  exec (if 0 <? errCount then exit (NonZeroErrorCount errCount) else ret tt) in
  emit InfoNoErrors.

Definition main (f : Flags) (received : list WorkerResult) : M unit :=
  run nlogs <- launchPhase f in
  collectPhase nlogs received.

(** The workers a run has started, in the order of their [go]
    statements. *)
Fixpoint launched (tr : list Event) : list HammerConfig :=
  match tr with
  | [] => []
  | Go cfg :: tr => cfg :: launched tr
  | _ :: tr => launched tr
  end.

(** The calls of [notAfterForLog] a run has made. *)
Fixpoint consulted (tr : list Event) : list LogConfig :=
  match tr with
  | [] => []
  | CallNotAfterForLog c :: tr => c :: consulted tr
  | _ :: tr => consulted tr
  end.

(** The logs reported as failed by [glog.Errorf]. *)
Fixpoint reported (tr : list Event) : list string :=
  match tr with
  | [] => []
  | ErrorFailed p _ :: tr => p :: reported tr
  | _ :: tr => reported tr
  end.

(** What the goroutine started for [cfg] sends on [results]. *)
Definition workerResult (cfg : HammerConfig) : WorkerResult :=
  {| prefix := Prefix (LogCfg cfg); err := HammerCTLog W cfg |}.

(** Every started worker has returned and sent its result: the channel
    holds the workers' results, in the order the sends happened. *)
Definition allReported (tr : list Event) (received : list WorkerResult) : Prop :=
  received ≡ₚ map workerResult (launched tr).

End Main.

(** ** The calculator as section 4.1 words it *)

(** The instant a valid Timestamp denotes, in nanoseconds since the Unix
    epoch. *)
Definition tsInstant (ts : Timestamp) : Z := Seconds ts * 1000000000 + Nanos ts.

(** The four rules, on instants: [now + 24h], [start + 24h], the midpoint
    [start + (limit - start)/2], [limit - 1h].  The division is Go's, on
    the nanosecond count; for [start <= limit] every rounding agrees up to
    the half nanosecond. *)
Definition notAfterSpec (now : Z) (start limit : option Z) : Z :=
  match start, limit with
  | None, None => now + 24 * Hour
  | Some s, None => s + 24 * Hour
  | Some s, Some l => s + Z.quot (l - s) 2
  | None, Some l => l - 1 * Hour
  end.

(** A bound that [ptypes.Timestamp] accepts. *)
Definition validBound (ts : Timestamp) : Prop :=
  ptypes.validateTimestamp (Some ts) = None.

(** What the midpoint computation needs of two bounds: each is an [int64]
    count of nanoseconds since the Unix epoch (a date from 1678 to 2262),
    and so is their difference (bounds less than about 292 years apart). *)
Definition midpointRepresentable (c : LogConfig) : Prop :=
  match NotAfterStart c, NotAfterLimit c with
  | Some s, Some l =>
      in_int64 (tsInstant s) /\ in_int64 (tsInstant l) /\ in_int64 (tsInstant l - tsInstant s)
  | _, _ => True
  end.

Definition validBounds (c : LogConfig) : Prop :=
  match NotAfterStart c with Some s => validBound s | None => True end /\
  match NotAfterLimit c with Some l => validBound l | None => True end.

(** [notAfterForLog] follows the four rules of section 4.1 at [now] and
    [c]: it returns a time, and the time is the instant the rules give. *)
Definition followsRules (now : Time) (c : LogConfig) : Prop :=
  exists t,
    notAfterForLog now c = Ok t /\
    instant t = notAfterSpec (instant now)
                  (tsInstant <$> NotAfterStart c) (tsInstant <$> NotAfterLimit c).

(** ** Notions the properties are stated with *)

(** The flags as they stand when the bias table is built: the two add
    biases cleared when there is no test data directory. *)
Definition flagsAtBias (f : Flags) : Flags :=
  if String.eqb (testDir f) "" then disableAddChain f else f.

(** The bias table a run with flags [f] builds and hands to its workers. *)
Definition constructedBias (W : World) (f : Flags) : HammerBias :=
  biasTable W (flagsAtBias f).

(** The flags [f] with the eight weights replaced. *)
Definition withWeights (f : Flags) (w : Z) : Flags :=
  {| banner := banner f; httpServers := httpServers f; testDir := testDir f;
     leafNotAfter := leafNotAfter f; metricsEndpoint := metricsEndpoint f;
     seed := seed f; logConfig := logConfig f; mmd := mmd f;
     operations := operations f; minGetEntries := minGetEntries f;
     maxGetEntries := maxGetEntries f; oversizedGetEntries := oversizedGetEntries f;
     maxParallelChains := maxParallelChains f; limit := limit f;
     ignoreErrors := ignoreErrors f; maxRetry := maxRetry f;
     addChainBias := w; addPreChainBias := w; getSTHBias := w;
     getSTHConsistencyBias := w; getProofByHashBias := w; getEntriesBias := w;
     getRootsBias := w; getEntryAndProofBias := w;
     invalidChance := invalidChance f |}.

(** Every weight of a table is zero. *)
Definition allZero (b : HammerBias) : Prop :=
  forall k w, Bias b !! k = Some w -> w = 0.

(** The flags [f] with another [--leaf_not_after]. *)
Definition withLeafNotAfter (f : Flags) (s : string) : Flags :=
  {| banner := banner f; httpServers := httpServers f; testDir := testDir f;
     leafNotAfter := s; metricsEndpoint := metricsEndpoint f;
     seed := seed f; logConfig := logConfig f; mmd := mmd f;
     operations := operations f; minGetEntries := minGetEntries f;
     maxGetEntries := maxGetEntries f; oversizedGetEntries := oversizedGetEntries f;
     maxParallelChains := maxParallelChains f; limit := limit f;
     ignoreErrors := ignoreErrors f; maxRetry := maxRetry f;
     addChainBias := addChainBias f; addPreChainBias := addPreChainBias f;
     getSTHBias := getSTHBias f; getSTHConsistencyBias := getSTHConsistencyBias f;
     getProofByHashBias := getProofByHashBias f; getEntriesBias := getEntriesBias f;
     getRootsBias := getRootsBias f; getEntryAndProofBias := getEntryAndProofBias f;
     invalidChance := invalidChance f |}.

(** The flags [f] with another [--rate_limit]. *)
Definition withLimit (f : Flags) (rate : Z) : Flags :=
  {| banner := banner f; httpServers := httpServers f; testDir := testDir f;
     leafNotAfter := leafNotAfter f; metricsEndpoint := metricsEndpoint f;
     seed := seed f; logConfig := logConfig f; mmd := mmd f;
     operations := operations f; minGetEntries := minGetEntries f;
     maxGetEntries := maxGetEntries f; oversizedGetEntries := oversizedGetEntries f;
     maxParallelChains := maxParallelChains f; limit := rate;
     ignoreErrors := ignoreErrors f; maxRetry := maxRetry f;
     addChainBias := addChainBias f; addPreChainBias := addPreChainBias f;
     getSTHBias := getSTHBias f; getSTHConsistencyBias := getSTHConsistencyBias f;
     getProofByHashBias := getProofByHashBias f; getEntriesBias := getEntriesBias f;
     getRootsBias := getRootsBias f; getEntryAndProofBias := getEntryAndProofBias f;
     invalidChance := invalidChance f |}.

(** The flags [f] with another [--testdata_dir]. *)
Definition withTestDir (f : Flags) (dir : string) : Flags :=
  {| banner := banner f; httpServers := httpServers f; testDir := dir;
     leafNotAfter := leafNotAfter f; metricsEndpoint := metricsEndpoint f;
     seed := seed f; logConfig := logConfig f; mmd := mmd f;
     operations := operations f; minGetEntries := minGetEntries f;
     maxGetEntries := maxGetEntries f; oversizedGetEntries := oversizedGetEntries f;
     maxParallelChains := maxParallelChains f; limit := limit f;
     ignoreErrors := ignoreErrors f; maxRetry := maxRetry f;
     addChainBias := addChainBias f; addPreChainBias := addPreChainBias f;
     getSTHBias := getSTHBias f; getSTHConsistencyBias := getSTHConsistencyBias f;
     getProofByHashBias := getProofByHashBias f; getEntriesBias := getEntriesBias f;
     getRootsBias := getRootsBias f; getEntryAndProofBias := getEntryAndProofBias f;
     invalidChance := invalidChance f |}.

(** The same worker with another bias table. *)
Definition setBias (b : HammerBias) (cfg : HammerConfig) : HammerConfig :=
  {| LogCfg := LogCfg cfg; MetricFactory_ := MetricFactory_ cfg; MMD := MMD cfg;
     ChainGenerator_ := ChainGenerator_ cfg; ClientPool_ := ClientPool_ cfg;
     EPBias := b;
     MinGetEntries := MinGetEntries cfg; MaxGetEntries := MaxGetEntries cfg;
     OversizedGetEntries := OversizedGetEntries cfg; Operations := Operations cfg;
     Limiter_ := Limiter_ cfg; MaxParallelChains := MaxParallelChains cfg;
     IgnoreErrors := IgnoreErrors cfg; MaxRetryDuration := MaxRetryDuration cfg |}.

(** The same event, with another bias table if it starts a worker. *)
Definition setEventBias (b : HammerBias) (e : Event) : Event :=
  match e with
  | Go cfg => Go (setBias b cfg)
  | e => e
  end.

(** Where in [main] a fatal exit is taken. *)
Inductive Stage : Type :=
| BeforeLoop   (* before [for _, c := range cfg] *)
| InLoop       (* while a log is prepared *)
| AfterWait.   (* after [wg.Wait()] *)

Definition stage (x : Fatal) : Stage :=
  match x with
  | NoLogConfig | ReadLogConfigFailed _ | LoadCertificateFailed _
  | RetrieveSignerFailed _ | ParseLeafNotAfterFailed _ => BeforeLoop
  | CreateClientPoolFailed _ | DetermineNotAfterFailed _ _
  | BuildChainGeneratorFailed _ => InLoop
  | NonZeroErrorCount _ => AfterWait
  end.

(** [notAfterOverride] as [main] computes it from the flags, or the parse
    error. *)
Definition overrideOf (W : World) (f : Flags) : result Time :=
  if String.eqb (leafNotAfter f) "" then Ok zeroTime
  else parseRFC3339 W (leafNotAfter f).

(** The value of [len(cfg)] when the launch phase returns. *)
Definition launchOutcome (cfg : list LogConfig) (o : Outcome unit) : Outcome nat :=
  match o with
  | Return _ => Return (length cfg)
  | Exit x => Exit x
  end.

(** In the run with flags [f], the time [t] is the notAfter of every
    started worker's chain generator, and [notAfterForLog] is never
    called. *)
Definition usedVerbatim (W : World) (f : Flags) (t : Time) : Prop :=
  consulted (launchPhase W f []).2 = [] /\
  Forall (fun cfg => generatorNotAfter (ChainGenerator_ cfg) = t)
    (launched (launchPhase W f []).2).

(** In the run with flags [f], no worker has been started. *)
Definition noWorkerStarted (W : World) (f : Flags) : Prop :=
  launched (launchPhase W f []).2 = [].

(** The prefixes of the results that carry an error, in order. *)
Definition failedPrefixes (rs : list WorkerResult) : list string :=
  omap (fun r => match err r with Some _ => Some (prefix r) | None => None end) rs.

(** The run with flags [f] exits before any worker has been started. *)
Definition abortsBeforeWorkers (W : World) (f : Flags) : Prop :=
  (exists x, (launchPhase W f []).1 = Exit x) /\ noWorkerStarted W f.

(** A computation that logs no failing log. *)
Definition quiet {A} (m : M A) : Prop :=
  forall tr o tr', m tr = (o, tr') -> reported tr' = reported tr.

(** ** A concrete world, to run the model on *)

Module Fixture.

Definition digit (a : ascii) : option Z :=
  let n := Z.of_nat (nat_of_ascii a) in
  if (48 <=? n) && (n <=? 57) then Some (n - 48) else None.

(** The decimal number written in the [len] characters of [s] from
    position [pos]. *)
Fixpoint number (s : string) (pos len : nat) (acc : Z) : option Z :=
  match len with
  | O => Some acc
  | S len =>
      a ← String.get pos s;
      d ← digit a;
      number s (S pos) len (acc * 10 + d)
  end.

Definition charAt (s : string) (pos : nat) (a : ascii) : bool :=
  match String.get pos s with
  | Some b => Ascii.eqb a b
  | None => false
  end.

Definition isLeap (y : Z) : bool :=
  ((y mod 4 =? 0) && negb (y mod 100 =? 0)) || (y mod 400 =? 0).

(** Days of a non-leap year before the first of month [m]. *)
Definition daysBefore (m : Z) : Z :=
  nth (Z.to_nat (m - 1)) [0; 31; 59; 90; 120; 151; 181; 212; 243; 273; 304; 334] 0.

Definition daysIn (y m : Z) : Z :=
  if (m =? 2) && isLeap y then 29
  else nth (Z.to_nat (m - 1)) [31; 28; 31; 30; 31; 30; 31; 31; 30; 31; 30; 31] 0.

(** [time.Date(y, m, d, hh, mm, ss, 0, time.UTC)] for fields in range. *)
Definition date (y m d hh mm ss : Z) : Time :=
  let y' := y - 1 in
  let days := 365 * y' + y' / 4 - y' / 100 + y' / 400
              + daysBefore m + (if (2 <? m) && isLeap y then 1 else 0) + (d - 1) in
  mkTime (days * 86400 + hh * 3600 + mm * 60 + ss) 0.

(** [time.Parse(time.RFC3339, s)] on the strings of the shape
    [YYYY-MM-DDTHH:MM:SSZ] (UTC, whole seconds, as in the flag's usage
    text); every other string is refused here. *)
Definition parseUTC (s : string) : result Time :=
  let fields :=
    y ← number s 0 4 0;
    m ← number s 5 2 0;
    d ← number s 8 2 0;
    hh ← number s 11 2 0;
    mm ← number s 14 2 0;
    ss ← number s 17 2 0;
    Some (y, m, d, hh, mm, ss) in
  match fields with
  | Some (y, m, d, hh, mm, ss) =>
      if (String.length s =? 20)%nat
         && charAt s 4 "-" && charAt s 7 "-" && charAt s 10 "T"
         && charAt s 13 ":" && charAt s 16 ":" && charAt s 19 "Z"
         && (1 <=? m) && (m <=? 12) && (1 <=? d) && (d <=? daysIn y m)
         && (hh <? 24) && (mm <? 60) && (ss <? 60)
      then Ok (date y m d hh mm ss)
      else Err (ErrOther "parsing time: cannot parse")
  | None => Err (ErrOther "parsing time: cannot parse")
  end.

(** The values of the [ctfe] constants. *)
Definition ctfeNames : Entrypoints :=
  {| AddChainName := "AddChain";
     AddPreChainName := "AddPreChain";
     GetSTHName := "GetSTH";
     GetSTHConsistencyName := "GetSTHConsistency";
     GetProofByHashName := "GetProofByHash";
     GetEntriesName := "GetEntries";
     GetRootsName := "GetRoots";
     GetEntryAndProofName := "GetEntryAndProof" |}.

(** A world in which the log config file holds [cfg], refused when it
    lists no log as [ctfe.LogConfigFromFile] refuses it; the clock stands
    at 2017-11-26T12:29:19Z; the test data directory holds a chain of two
    certificates and a key; every pool is built; a generator is built
    unless the chain has fewer than two certificates, which
    [integration.NewSyntheticChainGenerator] refuses; and exactly the
    workers of the logs whose prefix is in [failing] return an error.
    Keys and certificates are placeholders: [main] hands them on
    unread. *)
Definition world (cfg : list LogConfig) (failing : list string) : World :=
  {| clockAtSeed := date 2017 11 26 12 29 19;
     clockAtLog := fun _ => date 2017 11 26 12 29 19;
     parseRFC3339 := parseUTC;
     LogConfigFromFile := fun _ =>
       match cfg with
       | [] => Err (ErrOther "empty log config found")
       | _ => Ok cfg
       end;
     GetChain := fun _ _ => Ok [[48; 130]; [48; 130]];
     MakeSigner := fun _ => Ok (mkSigner [48; 119]);
     NewRandomPoolErr := fun _ _ _ => None;
     NewSyntheticChainGeneratorErr := fun chain _ _ =>
       if (length chain <? 2)%nat then Some (ErrOther "chain too short") else None;
     HammerCTLog := fun cfg =>
       if bool_decide (Prefix (LogCfg cfg) ∈ failing)
       then Some (ErrOther "hammer failed") else None;
     names := ctfeNames |}.

(** A log with no shard bounds. *)
Definition plainLog (p : string) : LogConfig :=
  {| Prefix := p; PublicKey := [48; 89]; ExpectedMergeDelaySec := 0;
     NotAfterStart := None; NotAfterLimit := None |}.

(** A log with the given shard bounds. *)
Definition shardLog (p : string) (start limit : option Timestamp) : LogConfig :=
  {| Prefix := p; PublicKey := [48; 89]; ExpectedMergeDelaySec := 0;
     NotAfterStart := start; NotAfterLimit := limit |}.

(** The flags of [ct_hammer --log_config=ct.cfg]. *)
Definition flags : Flags :=
  {| banner := banner defaultFlags; httpServers := httpServers defaultFlags;
     testDir := testDir defaultFlags; leafNotAfter := leafNotAfter defaultFlags;
     metricsEndpoint := metricsEndpoint defaultFlags; seed := 42;
     logConfig := "ct.cfg"; mmd := mmd defaultFlags;
     operations := operations defaultFlags; minGetEntries := minGetEntries defaultFlags;
     maxGetEntries := maxGetEntries defaultFlags;
     oversizedGetEntries := oversizedGetEntries defaultFlags;
     maxParallelChains := maxParallelChains defaultFlags; limit := limit defaultFlags;
     ignoreErrors := ignoreErrors defaultFlags; maxRetry := maxRetry defaultFlags;
     addChainBias := addChainBias defaultFlags;
     addPreChainBias := addPreChainBias defaultFlags;
     getSTHBias := getSTHBias defaultFlags;
     getSTHConsistencyBias := getSTHConsistencyBias defaultFlags;
     getProofByHashBias := getProofByHashBias defaultFlags;
     getEntriesBias := getEntriesBias defaultFlags;
     getRootsBias := getRootsBias defaultFlags;
     getEntryAndProofBias := getEntryAndProofBias defaultFlags;
     invalidChance := invalidChance defaultFlags |}.

End Fixture.

(** Each of the eight kinds is a key of both maps of the table. *)
Definition allKindsPresent (E : Entrypoints) (b : HammerBias) : Prop :=
  forall k, k ∈ all_names E -> is_Some (Bias b !! k) /\ is_Some (InvalidChance b !! k).

(** The two add kinds are keys of the weight map, with weight 0. *)
Definition addKindsZero (E : Entrypoints) (b : HammerBias) : Prop :=
  Bias b !! AddChainName E = Some 0 /\ Bias b !! AddPreChainName E = Some 0.

(** ** The course of the launch phase, in closed form *)

(** What [rand.Seed] and the line printed before it contribute. *)
Definition seedEvents (W : World) (f : Flags) : list Event :=
  [PrintSeed (effectiveSeed W f); RandSeed (effectiveSeed W f)].

(** The leaf chain and the signer [main] ends up with, or the exit taken
    while loading them. *)
Definition testDataOf (W : World) (f : Flags) : Outcome (list ASN1Cert * option Signer) :=
  if String.eqb (testDir f) "" then Return ([], None)
  else
    match GetChain W (testDir f) "leaf01.chain" with
    | Err e => Exit (LoadCertificateFailed e)
    | Ok lc =>
        match MakeSigner W (testDir f) with
        | Err e => Exit (RetrieveSignerFailed e)
        | Ok sg => Return (lc, Some sg)
        end
    end.

Definition testDataEvents (f : Flags) : list Event :=
  if String.eqb (testDir f) "" then [WarnNoCertGeneration] else [].

(** The metric factory [main] picks. *)
Definition metricFactoryOf (f : Flags) : MetricFactory :=
  if String.eqb (metricsEndpoint f) "" then InertMetricFactory else PrometheusMetricFactory.

Definition metricsEvents (f : Flags) : list Event :=
  if String.eqb (metricsEndpoint f) "" then [] else [ServeMetrics (metricsEndpoint f)].

Definition bannerEvents (f : Flags) : list Event :=
  if banner f then [PrintBanner] else [].

(** Everything a run does before the loop over the logs. *)
Definition setupEvents (W : World) (f : Flags) : list Event :=
  seedEvents W f ++ testDataEvents f ++ metricsEvents f ++ bannerEvents f.

(** The events of the loop: a call of [notAfterForLog], a [go]
    statement. *)
Definition loopEvent (e : Event) : Prop :=
  match e with
  | Go _ | CallNotAfterForLog _ => True
  | _ => False
  end.

(** A start bound strictly before the limit bound, when both are set. *)
Definition orderedBounds (c : LogConfig) : Prop :=
  match NotAfterStart c, NotAfterLimit c with
  | Some s, Some l => tsInstant s < tsInstant l
  | _, _ => True
  end.

(** The instant [z] lies in the shard of [c]: not before the start bound,
    and before the limit bound, as far as they are set. *)
Definition inShard (c : LogConfig) (z : Z) : Prop :=
  match NotAfterStart c with Some s => tsInstant s <= z | None => True end /\
  match NotAfterLimit c with Some l => z < tsInstant l | None => True end.

(** The flags [f] with another [--banner]. *)
Definition withBanner (f : Flags) (b : bool) : Flags :=
  {| banner := b; httpServers := httpServers f; testDir := testDir f;
     leafNotAfter := leafNotAfter f; metricsEndpoint := metricsEndpoint f;
     seed := seed f; logConfig := logConfig f; mmd := mmd f;
     operations := operations f; minGetEntries := minGetEntries f;
     maxGetEntries := maxGetEntries f; oversizedGetEntries := oversizedGetEntries f;
     maxParallelChains := maxParallelChains f; limit := limit f;
     ignoreErrors := ignoreErrors f; maxRetry := maxRetry f;
     addChainBias := addChainBias f; addPreChainBias := addPreChainBias f;
     getSTHBias := getSTHBias f; getSTHConsistencyBias := getSTHConsistencyBias f;
     getProofByHashBias := getProofByHashBias f; getEntriesBias := getEntriesBias f;
     getRootsBias := getRootsBias f; getEntryAndProofBias := getEntryAndProofBias f;
     invalidChance := invalidChance f |}.

(** * Properties *)

(** Turns the boolean comparisons in the hypotheses into orders on [Z]. *)
Ltac zbool :=
  repeat match goal with
  | H : (_ || _) = false |- _ => apply orb_false_iff in H; destruct H
  | H : (_ && _) = true |- _ => apply andb_true_iff in H; destruct H
  | H : (_ <? _) = true |- _ => apply Z.ltb_lt in H
  | H : (_ <? _) = false |- _ => apply Z.ltb_ge in H
  | H : (_ <=? _) = true |- _ => apply Z.leb_le in H
  | H : (_ <=? _) = false |- _ => apply Z.leb_gt in H
  | H : (_ =? _) = true |- _ => apply Z.eqb_eq in H
  | H : (_ =? _) = false |- _ => apply Z.eqb_neq in H
  end.

(** Decides a closed conjunction of comparisons by evaluating it. *)
Ltac by_evaluation :=
  vm_compute; repeat split; first [reflexivity | discriminate].

(** ** Arithmetic of [int64] and of [time.Time] *)

Section TimeFacts.

Lemma unixToInternal_eq : unixToInternal = 62135596800.
Proof. reflexivity. Qed.

Lemma wrap64_id z : in_int64 z -> wrap64 z = z.
Proof.
  unfold in_int64, wrap64. intros Hz.
  rewrite Z.mod_small by lia. lia.
Qed.

Lemma wrap64_range z : in_int64 (wrap64 z).
Proof.
  unfold in_int64, wrap64.
  pose proof (Z.mod_pos_bound (z + 2 ^ 63) (2 ^ 64) ltac:(lia)). lia.
Qed.

(** Two integers congruent modulo [2^64] wrap to the same [int64]. *)
Lemma wrap64_congr a b : a mod 2 ^ 64 = b mod 2 ^ 64 -> wrap64 a = wrap64 b.
Proof.
  intros Hab. unfold wrap64.
  rewrite <- (Zplus_mod_idemp_l a), <- (Zplus_mod_idemp_l b), Hab. reflexivity.
Qed.

Lemma wrap64_mod z : wrap64 z mod 2 ^ 64 = z mod 2 ^ 64.
Proof.
  unfold wrap64.
  rewrite <- Zminus_mod_idemp_l, Zminus_mod_idemp_l.
  rewrite Zminus_mod_idemp_l. f_equal. lia.
Qed.

Lemma wrap64_add_l a b : wrap64 (wrap64 a + b) = wrap64 (a + b).
Proof.
  apply wrap64_congr.
  rewrite <- Zplus_mod_idemp_l, wrap64_mod, Zplus_mod_idemp_l. reflexivity.
Qed.

Lemma wrap64_mul_l a b : wrap64 (wrap64 a * b) = wrap64 (a * b).
Proof.
  apply wrap64_congr.
  rewrite <- Zmult_mod_idemp_l, wrap64_mod, Zmult_mod_idemp_l. reflexivity.
Qed.

(** [UnixNano] is the instant, reduced to [int64]. *)
Lemma UnixNano_wrap t : UnixNano t = wrap64 (instant t).
Proof.
  unfold UnixNano, instant, internalToUnix.
  rewrite wrap64_add_l. apply wrap64_congr.
  rewrite <- Zplus_mod_idemp_l, <- Zmult_mod_idemp_l, wrap64_mod.
  rewrite Zmult_mod_idemp_l, Zplus_mod_idemp_l.
  reflexivity.
Qed.

Lemma UnixNano_exact t : in_int64 (instant t) -> UnixNano t = instant t.
Proof. intros H. rewrite UnixNano_wrap. apply wrap64_id, H. Qed.

End TimeFacts.

Section CalculatorFacts.

(** On a valid Timestamp, [time.Unix] reduces nothing. *)
Lemma Unix_valid ts :
  validBound ts -> Unix (Seconds ts) (Nanos ts) = mkTime (Seconds ts + unixToInternal) (Nanos ts).
Proof.
  unfold validBound, ptypes.validateTimestamp, ptypes.minValidSeconds, ptypes.maxValidSeconds.
  intros H.
  destruct (Seconds ts <? -62135596800) eqn:Hlo; [discriminate|].
  destruct (253402300800 <=? Seconds ts) eqn:Hhi; [discriminate|].
  destruct ((Nanos ts <? 0) || (1000000000 <=? Nanos ts)) eqn:Hn; [discriminate|].
  unfold Unix. rewrite Hn. f_equal.
  zbool. apply wrap64_id. unfold in_int64. rewrite unixToInternal_eq. lia.
Qed.

Lemma valid_bound_range ts :
  validBound ts ->
  -62135596800 <= Seconds ts < 253402300800 /\ 0 <= Nanos ts < 1000000000.
Proof.
  unfold validBound, ptypes.validateTimestamp, ptypes.minValidSeconds, ptypes.maxValidSeconds.
  intros H.
  destruct (Seconds ts <? -62135596800) eqn:Hlo; [discriminate|].
  destruct (253402300800 <=? Seconds ts) eqn:Hhi; [discriminate|].
  destruct ((Nanos ts <? 0) || (1000000000 <=? Nanos ts)) eqn:Hn; [discriminate|].
  zbool. lia.
Qed.

Lemma ptypes_Timestamp_valid ts :
  validBound ts ->
  ptypes.Timestamp (Some ts) = (mkTime (Seconds ts + unixToInternal) (Nanos ts), None).
Proof.
  intros H. unfold ptypes.Timestamp. rewrite Unix_valid by exact H.
  f_equal. exact H.
Qed.

(** Adding whole seconds moves [sec] and leaves [nsec]. *)
Lemma Add_seconds t k :
  0 <= nsec t < 1000000000 -> in_int64 (sec t + k) ->
  Add t (k * Second) = mkTime (sec t + k) (nsec t).
Proof.
  intros Hn Hs. unfold Add, Second.
  rewrite Z.quot_mul, Z.rem_mul by lia.
  rewrite Z.add_0_r.
  destruct (1000000000 <=? nsec t) eqn:H1; [zbool; lia|].
  destruct (nsec t <? 0) eqn:H2; [zbool; lia|].
  rewrite wrap64_id by exact Hs. reflexivity.
Qed.

Lemma Add_24h t :
  0 <= nsec t < 1000000000 -> in_int64 (sec t + 86400) ->
  Add t (24 * Hour) = mkTime (sec t + 86400) (nsec t).
Proof. intros Hn Hs. apply (Add_seconds t 86400 Hn Hs). Qed.

Lemma Add_minus_1h t :
  0 <= nsec t < 1000000000 -> in_int64 (sec t - 3600) ->
  Add t (-1 * Hour) = mkTime (sec t - 3600) (nsec t).
Proof. intros Hn Hs. apply (Add_seconds t (-3600) Hn Hs). Qed.

(** [time.Unix(0, n)] denotes the instant [n], for every [int64] [n]. *)
Lemma Unix_0_instant n :
  in_int64 n -> normal (Unix 0 n) /\ instant (Unix 0 n) = n.
Proof.
  intros Hn. unfold in_int64 in Hn. unfold Unix.
  destruct ((n <? 0) || (1000000000 <=? n)) eqn:Hb.
  - pose proof (Z.quot_rem' n 1000000000) as Hqr.
    set (q := Z.quot n 1000000000) in *.
    set (r := Z.rem n 1000000000) in *.
    assert (Hq : - 9223372037 <= q <= 9223372037).
    { destruct (Z_lt_le_dec n 0) as [Hneg|Hpos].
      - pose proof (Z.rem_bound_pos_neg n 1000000000 ltac:(lia) ltac:(lia)) as H. fold r in H. lia.
      - pose proof (Z.rem_bound_pos n 1000000000 ltac:(lia) ltac:(lia)) as H. fold r in H. lia. }
    assert (Hr : (n < 0 -> - 1000000000 < r <= 0) /\ (0 <= n -> 0 <= r < 1000000000)).
    { destruct (Z_lt_le_dec n 0) as [Hneg|Hpos].
      - pose proof (Z.rem_bound_pos_neg n 1000000000 ltac:(lia) ltac:(lia)) as H. fold r in H. lia.
      - pose proof (Z.rem_bound_pos n 1000000000 ltac:(lia) ltac:(lia)) as H. fold r in H. lia. }
    rewrite (wrap64_id (0 + q)) by (unfold in_int64; lia).
    rewrite (wrap64_id (q * 1000000000)) by (unfold in_int64; lia).
    replace (n - q * 1000000000) with r by lia.
    rewrite (wrap64_id r) by (unfold in_int64; lia).
    destruct (r <? 0) eqn:Hneg; zbool.
    + rewrite (wrap64_id (0 + q - 1)) by (unfold in_int64; lia).
      rewrite (wrap64_id (r + 1000000000)) by (unfold in_int64; lia).
      rewrite wrap64_id by (unfold in_int64; rewrite unixToInternal_eq; lia).
      unfold normal, instant, in_int64; cbn [sec nsec]; rewrite unixToInternal_eq. lia.
    + rewrite wrap64_id by (unfold in_int64; rewrite unixToInternal_eq; lia).
      unfold normal, instant, in_int64; cbn [sec nsec]; rewrite unixToInternal_eq. lia.
  - zbool.
    rewrite wrap64_id by (unfold in_int64; rewrite unixToInternal_eq; lia).
    unfold normal, instant, in_int64; cbn [sec nsec]; rewrite unixToInternal_eq. lia.
Qed.

End CalculatorFacts.

(** ** The temporal window calculator *)

Section Calculator.

Lemma quot2_between d :
  (0 <= d -> 0 <= Z.quot d 2 <= d) /\ (d < 0 -> d <= Z.quot d 2 <= 0).
Proof.
  pose proof (Z.quot_rem' d 2) as Hqr.
  split; intros Hd.
  - pose proof (Z.rem_bound_pos d 2 ltac:(lia) ltac:(lia)). lia.
  - pose proof (Z.rem_bound_pos_neg d 2 ltac:(lia) ltac:(lia)). lia.
Qed.

(** The midpoint computation on two instants that fit, with a
    difference that fits. *)
Lemma midpoint_exact s l :
  in_int64 s -> in_int64 l -> in_int64 (l - s) ->
  wrap64 (wrap64 (Z.quot (wrap64 (l - s)) 2) + s) = s + Z.quot (l - s) 2
  /\ in_int64 (s + Z.quot (l - s) 2).
Proof.
  intros Hs Hl Hd.
  rewrite (wrap64_id (l - s)) by exact Hd.
  destruct (quot2_between (l - s)) as [Hpos Hneg].
  unfold in_int64 in *.
  assert (Hq : - 2 ^ 63 <= Z.quot (l - s) 2 < 2 ^ 63) by lia.
  rewrite (wrap64_id (Z.quot (l - s) 2)) by exact Hq.
  assert (Hm : - 2 ^ 63 <= s + Z.quot (l - s) 2 < 2 ^ 63) by lia.
  split; [|exact Hm].
  rewrite Z.add_comm. rewrite wrap64_id; [lia|]. unfold in_int64. lia.
Qed.

Lemma instant_of_valid ts :
  instant (mkTime (Seconds ts + unixToInternal) (Nanos ts)) = tsInstant ts.
Proof. unfold instant, tsInstant. cbn [sec nsec]. lia. Qed.

(** A bound that [ptypes.Timestamp] rejects is reported, whichever bound
    it is, and no time is returned. *)
Lemma notAfterForLog_rejects_start now c s e :
  NotAfterStart c = Some s ->
  ptypes.validateTimestamp (Some s) = Some e ->
  notAfterForLog now c = Err (Errorf "failed to parse NotAfterStart" e).
Proof.
  intros Hs He. unfold notAfterForLog, ptypes.Timestamp. rewrite Hs, He.
  reflexivity.
Qed.

Lemma notAfterForLog_rejects_limit now c l e :
  match NotAfterStart c with Some s => validBound s | None => True end ->
  NotAfterLimit c = Some l ->
  ptypes.validateTimestamp (Some l) = Some e ->
  notAfterForLog now c = Err (Errorf "failed to parse NotAfterLimit" e).
Proof.
  intros Hs Hl He. unfold notAfterForLog, ptypes.Timestamp.
  destruct (NotAfterStart c) as [s|]; rewrite Hl.
  - rewrite Hs, He. reflexivity.
  - rewrite He. reflexivity.
Qed.

End Calculator.

(** C1, as amended.  For every log configuration whose set bounds are
    valid Timestamps, and a clock reading [now] a day short of the end of
    [int64] seconds, [notAfterForLog] returns a time, and the time is
    [now + 24h] when neither bound is set, [start + 24h] when only
    NotAfterStart is set, [limit - 1h] when only NotAfterLimit is set, and
    the midpoint [start + (limit - start)/2] when both are set and the two
    bounds and their difference are [int64] counts of nanoseconds. *)
Theorem notAfterForLog_follows_rules (now : Time) (c : LogConfig) :
  normal now -> in_int64 (sec now + 86400) ->
  validBounds c -> midpointRepresentable c ->
  exists t,
    notAfterForLog now c = Ok t /\ normal t /\
    instant t = notAfterSpec (instant now)
                  (tsInstant <$> NotAfterStart c) (tsInstant <$> NotAfterLimit c).
Proof.
  intros [Hnn Hns] Hday [Hvs Hvl] Hmid.
  unfold notAfterForLog, midpointRepresentable in *.
  destruct (NotAfterStart c) as [s|], (NotAfterLimit c) as [l|]; cbn [fmap option_fmap option_map notAfterSpec].
  - (* both bounds: the midpoint *)
    destruct Hmid as (His & Hil & Hid).
    rewrite !ptypes_Timestamp_valid by assumption.
    rewrite !UnixNano_wrap, !instant_of_valid.
    rewrite (wrap64_id (tsInstant s)), (wrap64_id (tsInstant l)) by assumption.
    destruct (midpoint_exact _ _ His Hil Hid) as [-> Hin].
    destruct (Unix_0_instant _ Hin) as [Hnorm Hinst].
    eexists; split; [reflexivity|]. split; assumption.
  - (* start only *)
    rewrite ptypes_Timestamp_valid by assumption.
    pose proof (valid_bound_range s Hvs) as [Hsec Hnan].
    rewrite Add_24h; cbn [sec nsec];
      [|lia|unfold in_int64; rewrite unixToInternal_eq; lia].
    eexists; split; [reflexivity|]. split.
    + unfold normal, in_int64; cbn [sec nsec]. rewrite unixToInternal_eq. lia.
    + unfold instant, tsInstant, Hour, Minute, Second; cbn [sec nsec]. lia.
  - (* limit only *)
    rewrite ptypes_Timestamp_valid by assumption.
    pose proof (valid_bound_range l Hvl) as [Hsec Hnan].
    rewrite Add_minus_1h; cbn [sec nsec];
      [|lia|unfold in_int64; rewrite unixToInternal_eq; lia].
    eexists; split; [reflexivity|]. split.
    + unfold normal, in_int64; cbn [sec nsec]. rewrite unixToInternal_eq. lia.
    + unfold instant, tsInstant, Hour, Minute, Second; cbn [sec nsec]. lia.
  - (* neither bound *)
    rewrite Add_24h by assumption.
    eexists; split; [reflexivity|]. split.
    + unfold normal; cbn [sec nsec]. split; assumption.
    + unfold instant, Hour, Minute, Second; cbn [sec nsec]. lia.
Qed.

(** The shard [2017-11-26T12:29:19Z, +10h): the result is five hours
    after the start. *)
Lemma notAfterForLog_follows_rules_witness :
  exists t,
    notAfterForLog (Fixture.date 2017 11 26 12 29 19)
      (Fixture.shardLog "shard2017"
         (Some (mkTimestamp 1511699359 0)) (Some (mkTimestamp 1511735359 0))) = Ok t /\
    normal t /\
    instant t = notAfterSpec (instant (Fixture.date 2017 11 26 12 29 19))
                  (Some 1511699359000000000) (Some 1511735359000000000).
Proof.
  apply (notAfterForLog_follows_rules (Fixture.date 2017 11 26 12 29 19)
           (Fixture.shardLog "shard2017"
              (Some (mkTimestamp 1511699359 0)) (Some (mkTimestamp 1511735359 0)))).
  - by_evaluation.
  - by_evaluation.
  - by_evaluation.
  - by_evaluation.
Defined.

(** C1, as stated, fails.  For the shard [3000-01-01T00:00:00Z, +10h),
    two valid Timestamps, the nanosecond counts leave [int64] and the
    result is an instant in 1830, not five hours after the start; and for
    a start bound whose Nanos field is negative an error is returned, not
    [start + 24h]. *)
Lemma notAfterForLog_breaks_rules :
  ~ followsRules (Fixture.date 2017 11 26 12 29 19)
      (Fixture.shardLog "shard3000"
         (Some (mkTimestamp 32503680000 0)) (Some (mkTimestamp 32503716000 0))) /\
  ~ followsRules (Fixture.date 2017 11 26 12 29 19)
      (Fixture.shardLog "malformed" (Some (mkTimestamp 1511699359 (-1))) None).
Proof.
  split; intros (t & Hret & Hinst).
  - vm_compute in Hret. injection Hret as <-.
    vm_compute in Hinst. discriminate Hinst.
  - vm_compute in Hret. discriminate Hret.
Qed.

(** What the code returns for the shard [3000-01-01T00:00:00Z, +10h):
    Unix second -4389790148, in the year 1830. *)
Example notAfterForLog_year_3000 :
  notAfterForLog (Fixture.date 2017 11 26 12 29 19)
    (Fixture.shardLog "shard3000"
       (Some (mkTimestamp 32503680000 0)) (Some (mkTimestamp 32503716000 0)))
  = Ok (mkTime (-4389790148 + unixToInternal) 580896768).
Proof. reflexivity. Qed.

(** ** The bias table *)

Section BiasTable.

Context (W : World).

Lemma Bias_keys f : (list_to_map (M := gmap string Z)
    [(AddChainName (names W), addChainBias f);
     (AddPreChainName (names W), addPreChainBias f);
     (GetSTHName (names W), getSTHBias f);
     (GetSTHConsistencyName (names W), getSTHConsistencyBias f);
     (GetProofByHashName (names W), getProofByHashBias f);
     (GetEntriesName (names W), getEntriesBias f);
     (GetRootsName (names W), getRootsBias f);
     (GetEntryAndProofName (names W), getEntryAndProofBias f)]) = Bias (biasTable W f).
Proof. reflexivity. Qed.

(** With distinct names, each key of the [Bias] literal maps to the
    value written next to it. *)
Lemma Bias_lookup f k v :
  distinct_names (names W) ->
  (k, v) ∈ [(AddChainName (names W), addChainBias f);
            (AddPreChainName (names W), addPreChainBias f);
            (GetSTHName (names W), getSTHBias f);
            (GetSTHConsistencyName (names W), getSTHConsistencyBias f);
            (GetProofByHashName (names W), getProofByHashBias f);
            (GetEntriesName (names W), getEntriesBias f);
            (GetRootsName (names W), getRootsBias f);
            (GetEntryAndProofName (names W), getEntryAndProofBias f)] ->
  Bias (biasTable W f) !! k = Some v.
Proof.
  intros Hd Hin. rewrite <- Bias_keys.
  apply elem_of_list_to_map_1; [exact Hd | exact Hin].
Qed.

(** The same for the [InvalidChance] literal. *)
Lemma InvalidChance_lookup f k v :
  distinct_names (names W) ->
  (k, v) ∈ [(AddChainName (names W), invalidChance f);
            (AddPreChainName (names W), invalidChance f);
            (GetSTHName (names W), 0);
            (GetSTHConsistencyName (names W), invalidChance f);
            (GetProofByHashName (names W), invalidChance f);
            (GetEntriesName (names W), invalidChance f);
            (GetRootsName (names W), 0);
            (GetEntryAndProofName (names W), 0)] ->
  InvalidChance (biasTable W f) !! k = Some v.
Proof.
  intros Hd Hin. unfold biasTable. cbn [InvalidChance].
  apply elem_of_list_to_map_1; [exact Hd | exact Hin].
Qed.

Lemma invalidChance_flagsAtBias f : invalidChance (flagsAtBias f) = invalidChance f.
Proof. unfold flagsAtBias. destruct (String.eqb (testDir f) ""); reflexivity. Qed.

End BiasTable.

(** C4.  In the bias table a run builds, the invalid chance of get-sth,
    get-roots and get-entry-and-proof is 0 whatever the invalid-chance
    flag is, and that of add-chain, add-pre-chain, get-sth-consistency,
    get-proof-by-hash and get-entries is the flag's value. *)
Theorem invalid_chance_of_each_kind (W : World) (f : Flags) :
  distinct_names (names W) ->
  let E := names W in
  let ic := InvalidChance (constructedBias W f) in
  (ic !! GetSTHName E = Some 0 /\
   ic !! GetRootsName E = Some 0 /\
   ic !! GetEntryAndProofName E = Some 0) /\
  (ic !! AddChainName E = Some (invalidChance f) /\
   ic !! AddPreChainName E = Some (invalidChance f) /\
   ic !! GetSTHConsistencyName E = Some (invalidChance f) /\
   ic !! GetProofByHashName E = Some (invalidChance f) /\
   ic !! GetEntriesName E = Some (invalidChance f)).
Proof.
  intros Hd E ic. subst E ic. unfold constructedBias.
  rewrite <- (invalidChance_flagsAtBias f).
  repeat split; apply InvalidChance_lookup; try exact Hd;
    rewrite !elem_of_cons; auto 10.
Qed.

Lemma distinct_ctfeNames : distinct_names Fixture.ctfeNames.
Proof. apply (bool_decide_unpack _). vm_compute. reflexivity. Defined.

(** With the names of package [ctfe] and [--invalid_chance=10]. *)
Lemma invalid_chance_of_each_kind_witness :
  let W := Fixture.world [Fixture.plainLog "A"] [] in
  let ic := InvalidChance (constructedBias W Fixture.flags) in
  (ic !! "GetSTH" = Some 0 /\
   ic !! "GetRoots" = Some 0 /\
   ic !! "GetEntryAndProof" = Some 0) /\
  (ic !! "AddChain" = Some 10 /\
   ic !! "AddPreChain" = Some 10 /\
   ic !! "GetSTHConsistency" = Some 10 /\
   ic !! "GetProofByHash" = Some 10 /\
   ic !! "GetEntries" = Some 10).
Proof.
  exact (invalid_chance_of_each_kind (Fixture.world [Fixture.plainLog "A"] []) Fixture.flags distinct_ctfeNames).
Defined.

(** The table built from the flags as they stand after the test data
    branch: with no test data directory the two add weights are 0, and
    all eight kinds are keys of both maps. *)
Lemma constructedBias_complete (W : World) (f : Flags) :
  distinct_names (names W) ->
  (testDir f = "" -> addKindsZero (names W) (constructedBias W f)) /\
  allKindsPresent (names W) (constructedBias W f).
Proof.
  intros Hd. unfold constructedBias. split.
  - intros Hdir. unfold flagsAtBias. rewrite Hdir. cbn [String.eqb].
    split; apply Bias_lookup; try exact Hd;
      cbn [addChainBias addPreChainBias disableAddChain];
      rewrite !elem_of_cons; auto 10.
  - intros k Hk. unfold all_names in Hk.
    rewrite !elem_of_cons, elem_of_nil in Hk.
    destruct Hk as [->|[->|[->|[->|[->|[->|[->|[->|[]]]]]]]]];
      (split; eexists;
       [apply Bias_lookup | apply InvalidChance_lookup]; try exact Hd;
       rewrite !elem_of_cons; auto 10).
Qed.

(** ** The launch loop *)

Section Traces.

Lemma launched_app tr1 tr2 : launched (tr1 ++ tr2) = launched tr1 ++ launched tr2.
Proof.
  induction tr1 as [|e tr1 IH]; [reflexivity|].
  destruct e; cbn [app launched]; rewrite ?IH; reflexivity.
Qed.

Lemma consulted_app tr1 tr2 : consulted (tr1 ++ tr2) = consulted tr1 ++ consulted tr2.
Proof.
  induction tr1 as [|e tr1 IH]; [reflexivity|].
  destruct e; cbn [app consulted]; rewrite ?IH; reflexivity.
Qed.

Lemma reported_app tr1 tr2 : reported (tr1 ++ tr2) = reported tr1 ++ reported tr2.
Proof.
  induction tr1 as [|e tr1 IH]; [reflexivity|].
  destruct e; cbn [app reported]; rewrite ?IH; reflexivity.
Qed.

End Traces.

(** Pushes the readings of a trace through its concatenations. *)
Ltac trace_simpl :=
  rewrite ?launched_app, ?consulted_app, ?reported_app;
  cbn [launched consulted reported app];
  rewrite ?app_nil_r.

Section Launch.

Context (W : World).

(** One iteration, case by case. *)
Lemma launchLog_cases f lc sg ov b mf i c tr :
  let consult := if IsZero ov then [CallNotAfterForLog c] else [] in
  let na := if IsZero ov then notAfterForLog (clockAtLog W i) c else Ok ov in
  launchLog W f lc sg ov b mf i c tr =
    match NewRandomPoolErr W (httpServers f) (PublicKey c) (Prefix c) with
    | Some e => (Exit (CreateClientPoolFailed e), tr)
    | None =>
        match na with
        | Err e => (Exit (DetermineNotAfterFailed (Prefix c) e), tr ++ consult)
        | Ok t =>
            match NewSyntheticChainGeneratorErr W lc sg t with
            | Some e => (Exit (BuildChainGeneratorFailed e), tr ++ consult)
            | None =>
                (Return tt,
                 (tr ++ consult) ++
                 [Go (workerConfig f c mf (logMMD f c) (SyntheticChainGenerator lc sg t)
                        (RandomPool (httpServers f) (PublicKey c) (Prefix c)) b)])
            end
        end
    end.
Proof.
  intros consult na. subst consult na.
  unfold launchLog, bind, checkErr, orExit, emit, ret, exit.
  destruct (NewRandomPoolErr W (httpServers f) (PublicKey c) (Prefix c)); [reflexivity|].
  destruct (IsZero ov).
  - destruct (notAfterForLog (clockAtLog W i) c) as [t|e]; [|reflexivity].
    destruct (NewSyntheticChainGeneratorErr W lc sg t); reflexivity.
  - rewrite app_nil_r.
    destruct (NewSyntheticChainGeneratorErr W lc sg ov); reflexivity.
Qed.

Lemma launchAll_cons f lc sg ov b mf i c rest tr :
  launchAll W f lc sg ov b mf i (c :: rest) tr =
    match launchLog W f lc sg ov b mf i c tr with
    | (Return _, tr') => launchAll W f lc sg ov b mf (S i) rest tr'
    | (Exit x, tr') => (Exit x, tr')
    end.
Proof. reflexivity. Qed.

(** The loop starts the workers of the logs it gets through, in order,
    and none after the log whose preparation fails. *)
Lemma launchAll_prefix f lc sg ov b mf cfgs : forall i tr o tr',
  launchAll W f lc sg ov b mf i cfgs tr = (o, tr') ->
  exists pre rest,
    cfgs = pre ++ rest /\
    map LogCfg (launched tr') = map LogCfg (launched tr) ++ pre /\
    match o with
    | Return _ => rest = []
    | Exit x =>
        stage x = InLoop /\
        exists c post,
          rest = c :: post /\
          forall p e, x = DetermineNotAfterFailed p e ->
                      p = Prefix c /\ IsZero ov = true /\
                      notAfterForLog (clockAtLog W (i + length pre)) c = Err e
    end.
Proof.
  induction cfgs as [|c rest IH]; intros i tr o tr' Hrun.
  - cbn in Hrun. injection Hrun as <- <-.
    exists [], []. rewrite !app_nil_r. auto.
  - rewrite launchAll_cons, launchLog_cases in Hrun.
    destruct (NewRandomPoolErr W (httpServers f) (PublicKey c) (Prefix c)) as [e|].
    { injection Hrun as <- <-. exists [], (c :: rest).
      trace_simpl. repeat split; eauto.
      exists c, rest. split; [reflexivity|]. intros p e' Heq. discriminate Heq. }
    destruct (IsZero ov) eqn:Hov.
    + destruct (notAfterForLog (clockAtLog W i) c) as [t|e] eqn:Hna.
      * destruct (NewSyntheticChainGeneratorErr W lc sg t) as [e|].
        { injection Hrun as <- <-. exists [], (c :: rest).
          trace_simpl. repeat split; eauto.
          exists c, rest. split; [reflexivity|]. intros p e' Heq. discriminate Heq. }
        apply IH in Hrun as (pre & rest' & -> & Hl & Ho).
        exists (c :: pre), rest'. split; [reflexivity|]. split.
        { rewrite Hl. trace_simpl. rewrite !map_app. cbn [map LogCfg workerConfig].
          rewrite <- !app_assoc. reflexivity. }
        destruct o as [u|x]; [exact Ho|].
        destruct Ho as (Hst & c' & post & -> & Hx).
        split; [exact Hst|]. exists c', post. split; [reflexivity|].
        cbn [length]. replace (i + S (length pre))%nat with (S i + length pre)%nat by lia.
        exact Hx.
      * injection Hrun as <- <-. exists [], (c :: rest).
        trace_simpl. repeat split; eauto.
        exists c, rest. split; [reflexivity|]. intros p e' Heq.
        injection Heq as <- <-. rewrite Nat.add_0_r. auto.
    + destruct (NewSyntheticChainGeneratorErr W lc sg ov) as [e|].
      { injection Hrun as <- <-. exists [], (c :: rest).
        trace_simpl. repeat split; eauto.
        exists c, rest. split; [reflexivity|]. intros p e' Heq. discriminate Heq. }
      apply IH in Hrun as (pre & rest' & -> & Hl & Ho).
      exists (c :: pre), rest'. split; [reflexivity|]. split.
      { rewrite Hl. trace_simpl. rewrite !map_app. cbn [map LogCfg workerConfig].
        rewrite <- !app_assoc. reflexivity. }
      destruct o as [u|x]; [exact Ho|].
      destruct Ho as (Hst & c' & post & -> & Hx).
      split; [exact Hst|]. exists c', post. split; [reflexivity|].
      cbn [length]. replace (i + S (length pre))%nat with (S i + length pre)%nat by lia.
      exact Hx.
Qed.

(** What holds of every worker configuration the loop can build holds
    of every worker it starts. *)
Lemma launchAll_workers f lc sg ov b mf (Q : HammerConfig -> Prop) :
  (forall i c t,
      (if IsZero ov then notAfterForLog (clockAtLog W i) c = Ok t else t = ov) ->
      Q (workerConfig f c mf (logMMD f c) (SyntheticChainGenerator lc sg t)
           (RandomPool (httpServers f) (PublicKey c) (Prefix c)) b)) ->
  forall cfgs i tr o tr',
    launchAll W f lc sg ov b mf i cfgs tr = (o, tr') ->
    Forall Q (launched tr) -> Forall Q (launched tr').
Proof.
  intros HQ. induction cfgs as [|c rest IH]; intros i tr o tr' Hrun Htr.
  - cbn in Hrun. injection Hrun as <- <-. exact Htr.
  - rewrite launchAll_cons, launchLog_cases in Hrun.
    specialize (HQ i c).
    destruct (NewRandomPoolErr W (httpServers f) (PublicKey c) (Prefix c)) as [e|].
    { injection Hrun as <- <-. exact Htr. }
    destruct (IsZero ov).
    + destruct (notAfterForLog (clockAtLog W i) c) as [t|e].
      * destruct (NewSyntheticChainGeneratorErr W lc sg t) as [e|].
        { injection Hrun as <- <-. trace_simpl. exact Htr. }
        apply IH in Hrun; [exact Hrun|].
        trace_simpl. apply Forall_app. split; [exact Htr|].
        apply Forall_cons. split; [apply HQ; reflexivity | apply Forall_nil; exact I].
      * injection Hrun as <- <-. trace_simpl. exact Htr.
    + destruct (NewSyntheticChainGeneratorErr W lc sg ov) as [e|].
      { injection Hrun as <- <-. trace_simpl. exact Htr. }
      apply IH in Hrun; [exact Hrun|].
      trace_simpl. apply Forall_app. split; [exact Htr|].
      apply Forall_cons. split; [apply HQ; reflexivity | apply Forall_nil; exact I].
Qed.

(** With an override that is not the zero time, the loop never calls
    [notAfterForLog]. *)
Lemma launchAll_not_consulted f lc sg ov b mf cfgs : forall i tr o tr',
  IsZero ov = false ->
  launchAll W f lc sg ov b mf i cfgs tr = (o, tr') ->
  consulted tr' = consulted tr.
Proof.
  induction cfgs as [|c rest IH]; intros i tr o tr' Hov Hrun.
  - cbn in Hrun. injection Hrun as <- <-. reflexivity.
  - rewrite launchAll_cons, launchLog_cases, Hov in Hrun.
    destruct (NewRandomPoolErr W (httpServers f) (PublicKey c) (Prefix c)) as [e|].
    { injection Hrun as <- <-. reflexivity. }
    destruct (NewSyntheticChainGeneratorErr W lc sg ov) as [e|].
    { injection Hrun as <- <-. trace_simpl. reflexivity. }
    apply IH in Hrun; [|exact Hov]. rewrite Hrun. trace_simpl. reflexivity.
Qed.

(** With the zero time as override, a loop that gets through every log
    has called [notAfterForLog] once for each, in order. *)
Lemma launchAll_consulted f lc sg ov b mf cfgs : forall i tr u tr',
  IsZero ov = true ->
  launchAll W f lc sg ov b mf i cfgs tr = (Return u, tr') ->
  consulted tr' = consulted tr ++ cfgs.
Proof.
  induction cfgs as [|c rest IH]; intros i tr u tr' Hov Hrun.
  - cbn in Hrun. injection Hrun as <- <-. rewrite app_nil_r. reflexivity.
  - rewrite launchAll_cons, launchLog_cases, Hov in Hrun.
    destruct (NewRandomPoolErr W (httpServers f) (PublicKey c) (Prefix c)) as [e|];
      [discriminate Hrun|].
    destruct (notAfterForLog (clockAtLog W i) c) as [t|e]; [|discriminate Hrun].
    destruct (NewSyntheticChainGeneratorErr W lc sg t) as [e|]; [discriminate Hrun|].
    apply IH in Hrun; [|exact Hov]. rewrite Hrun. trace_simpl.
    rewrite <- app_assoc. reflexivity.
Qed.

(** The loop does not look into the bias table: with another table it
    takes the same course and hands that table on. *)
Lemma launchAll_bias f lc sg ov b b' mf cfgs : forall i tr o tr',
  launchAll W f lc sg ov b mf i cfgs tr = (o, tr') ->
  launchAll W f lc sg ov b' mf i cfgs (map (setEventBias b') tr)
    = (o, map (setEventBias b') tr').
Proof.
  induction cfgs as [|c rest IH]; intros i tr o tr' Hrun.
  - cbn in Hrun. injection Hrun as <- <-. reflexivity.
  - rewrite launchAll_cons, launchLog_cases in Hrun.
    rewrite launchAll_cons, launchLog_cases.
    destruct (NewRandomPoolErr W (httpServers f) (PublicKey c) (Prefix c)) as [e|].
    { injection Hrun as <- <-. reflexivity. }
    destruct (if IsZero ov then notAfterForLog (clockAtLog W i) c else Ok ov) as [t|e].
    + destruct (NewSyntheticChainGeneratorErr W lc sg t) as [e|].
      { injection Hrun as <- <-. rewrite map_app. f_equal. f_equal.
        destruct (IsZero ov); reflexivity. }
      apply IH in Hrun. rewrite <- Hrun. f_equal.
      rewrite !map_app. f_equal. f_equal.
      destruct (IsZero ov); reflexivity.
    + injection Hrun as <- <-. rewrite map_app. f_equal. f_equal.
      destruct (IsZero ov); reflexivity.
Qed.

(** The loop reads the flags only through the fields it hands on. *)
Lemma launchAll_flags f f' lc sg ov b mf cfgs : forall i tr,
  httpServers f = httpServers f' -> mmd f = mmd f' ->
  (forall c mf m g p, workerConfig f c mf m g p b = workerConfig f' c mf m g p b) ->
  launchAll W f lc sg ov b mf i cfgs tr = launchAll W f' lc sg ov b mf i cfgs tr.
Proof.
  intros i tr Hs Hm Hw. revert i tr.
  induction cfgs as [|c rest IH]; intros i tr; [reflexivity|].
  rewrite !launchAll_cons, !launchLog_cases.
  unfold logMMD. rewrite <- Hs, <- Hm.
  destruct (NewRandomPoolErr W (httpServers f) (PublicKey c) (Prefix c)) as [e|];
    [reflexivity|].
  destruct (if IsZero ov then notAfterForLog (clockAtLog W i) c else Ok ov) as [t|e];
    [|reflexivity].
  destruct (NewSyntheticChainGeneratorErr W lc sg t) as [e|]; [reflexivity|].
  rewrite <- Hw. apply IH.
Qed.

(** The launch phase either exits before the loop, with no worker
    started and no call of [notAfterForLog], or reaches the loop, with
    the logs of the config file, the override, and the table built from
    the flags. *)
Lemma launchPhase_inv f o tr :
  launchPhase W f [] = (o, tr) ->
  (exists x, o = Exit x /\ stage x = BeforeLoop /\ launched tr = [] /\ consulted tr = [])
  \/
  (exists cfg lc sg ov mf tr0 o',
      LogConfigFromFile W (logConfig f) = Ok cfg /\
      overrideOf W f = Ok ov /\
      launched tr0 = [] /\ consulted tr0 = [] /\
      launchAll W (flagsAtBias f) lc sg ov (constructedBias W f) mf 0 cfg tr0 = (o', tr) /\
      o = launchOutcome cfg o').
Proof.
  unfold launchPhase, setupPhase, constructedBias, flagsAtBias, overrideOf.
  unfold loadTestData, parseOverride, metricFactory, bind, orExit, emit, ret, exit.
  intros Hrun.
  destruct (String.eqb (logConfig f) "").
  { cbn [app] in Hrun. injection Hrun as <- <-. left. eexists. repeat split. }
  cbn [app] in Hrun.
  destruct (LogConfigFromFile W (logConfig f)) as [cfg|e].
  2:{ cbn [app] in Hrun. injection Hrun as <- <-. left. eexists. repeat split. }
  destruct (String.eqb (testDir f) "").
  - cbn [app leafNotAfter metricsEndpoint banner disableAddChain] in Hrun.
    destruct (String.eqb (leafNotAfter f) "").
    + destruct (String.eqb (metricsEndpoint f) ""), (banner f); cbn [app pCfg pLeafChain pSigner pFlags pNotAfterOverride pBias pMetricFactory] in Hrun;
        match type of Hrun with
        | match launchAll _ _ ?lc ?sg ?ov _ ?mf _ _ ?tr0 with _ => _ end = _ =>
            destruct (launchAll W (disableAddChain f) lc sg ov
                        (biasTable W (disableAddChain f)) mf 0 cfg tr0)
              as [o' tr'] eqn:Hloop;
            right; exists cfg, lc, sg, ov, mf, tr0, o';
            destruct o'; injection Hrun as <- <-; repeat split; exact Hloop
        end.
    + destruct (parseRFC3339 W (leafNotAfter f)) as [ov|e].
      2:{ cbn [app] in Hrun. injection Hrun as <- <-. left. eexists. repeat split. }
      destruct (String.eqb (metricsEndpoint f) ""), (banner f); cbn [app pCfg pLeafChain pSigner pFlags pNotAfterOverride pBias pMetricFactory] in Hrun;
        match type of Hrun with
        | match launchAll _ _ ?lc ?sg ?ov _ ?mf _ _ ?tr0 with _ => _ end = _ =>
            destruct (launchAll W (disableAddChain f) lc sg ov
                        (biasTable W (disableAddChain f)) mf 0 cfg tr0)
              as [o' tr'] eqn:Hloop;
            right; exists cfg, lc, sg, ov, mf, tr0, o';
            destruct o'; injection Hrun as <- <-; repeat split; exact Hloop
        end.
  - destruct (GetChain W (testDir f) "leaf01.chain") as [lc|e].
    2:{ cbn [app] in Hrun. injection Hrun as <- <-. left. eexists. repeat split. }
    destruct (MakeSigner W (testDir f)) as [sg|e].
    2:{ cbn [app] in Hrun. injection Hrun as <- <-. left. eexists. repeat split. }
    destruct (String.eqb (leafNotAfter f) "").
    + destruct (String.eqb (metricsEndpoint f) ""), (banner f); cbn [app pCfg pLeafChain pSigner pFlags pNotAfterOverride pBias pMetricFactory] in Hrun;
        match type of Hrun with
        | match launchAll _ _ ?lc ?sg ?ov _ ?mf _ _ ?tr0 with _ => _ end = _ =>
            destruct (launchAll W f lc sg ov (biasTable W f) mf 0 cfg tr0)
              as [o' tr'] eqn:Hloop;
            right; exists cfg, lc, sg, ov, mf, tr0, o';
            destruct o'; injection Hrun as <- <-; repeat split; exact Hloop
        end.
    + destruct (parseRFC3339 W (leafNotAfter f)) as [ov|e].
      2:{ cbn [app] in Hrun. injection Hrun as <- <-. left. eexists. repeat split. }
      destruct (String.eqb (metricsEndpoint f) ""), (banner f); cbn [app pCfg pLeafChain pSigner pFlags pNotAfterOverride pBias pMetricFactory] in Hrun;
        match type of Hrun with
        | match launchAll _ _ ?lc ?sg ?ov _ ?mf _ _ ?tr0 with _ => _ end = _ =>
            destruct (launchAll W f lc sg ov (biasTable W f) mf 0 cfg tr0)
              as [o' tr'] eqn:Hloop;
            right; exists cfg, lc, sg, ov, mf, tr0, o';
            destruct o'; injection Hrun as <- <-; repeat split; exact Hloop
        end.
Qed.

End Launch.

(** ** What the launch phase guarantees *)

Section LaunchPhase.

Context (W : World).

(** What holds of every worker configuration the loop can build from
    the flags holds of every worker a run starts. *)
Lemma launchPhase_workers f (Q : HammerConfig -> Prop) :
  (forall ov lc sg mf i c t,
      overrideOf W f = Ok ov ->
      (if IsZero ov then notAfterForLog (clockAtLog W i) c = Ok t else t = ov) ->
      Q (workerConfig (flagsAtBias f) c mf (logMMD (flagsAtBias f) c)
           (SyntheticChainGenerator lc sg t)
           (RandomPool (httpServers (flagsAtBias f)) (PublicKey c) (Prefix c))
           (constructedBias W f))) ->
  Forall Q (launched (launchPhase W f []).2).
Proof.
  intros HQ.
  destruct (launchPhase W f []) as [o tr] eqn:Hrun. cbn [snd].
  apply launchPhase_inv in Hrun
    as [(x & _ & _ & -> & _)|(cfg & lc & sg & ov & mf & tr0 & o' & _ & Hov & Hl0 & _ & Hloop & _)].
  - apply Forall_nil. exact I.
  - eapply launchAll_workers in Hloop; [exact Hloop| |rewrite Hl0; apply Forall_nil; exact I].
    intros i c t Ht. cbv beta. eapply HQ; eassumption.
Qed.

(** A launch phase that returns has started one worker per configured
    log, in the order of the config file. *)
Lemma one_worker_per_log f n tr :
  launchPhase W f [] = (Return n, tr) ->
  exists cfg,
    LogConfigFromFile W (logConfig f) = Ok cfg /\ n = length cfg /\
    map LogCfg (launched tr) = cfg.
Proof.
  intros Hrun.
  apply launchPhase_inv in Hrun
    as [(x & Hx & _)|(cfg & lc & sg & ov & mf & tr0 & o' & Hcfg & _ & Hl0 & _ & Hloop & Ho)];
    [discriminate Hx|].
  exists cfg. split; [exact Hcfg|].
  destruct o' as [u|x]; [|discriminate Ho]. injection Ho as ->.
  apply launchAll_prefix in Hloop as (pre & rest & -> & Hl & ->).
  rewrite Hl0 in Hl. cbn [map app] in Hl. rewrite app_nil_r. auto.
Qed.

Lemma limit_flagsAtBias f : limit (flagsAtBias f) = limit f.
Proof. unfold flagsAtBias. destruct (String.eqb (testDir f) ""); reflexivity. Qed.

Lemma leafNotAfter_flagsAtBias f : leafNotAfter (flagsAtBias f) = leafNotAfter f.
Proof. unfold flagsAtBias. destruct (String.eqb (testDir f) ""); reflexivity. Qed.

End LaunchPhase.

Section Setup.

Context (W : World).

(** The set-up, exit by exit, and what it leaves for the loop: the flags
    with the add biases cleared when there is no test data directory, and
    the table built from those. *)
Lemma setupPhase_cases f :
  setupPhase W f [] =
    if String.eqb (logConfig f) "" then (Exit NoLogConfig, [])
    else
      match LogConfigFromFile W (logConfig f) with
      | Err e => (Exit (ReadLogConfigFailed e), seedEvents W f)
      | Ok cfg =>
          match testDataOf W f with
          | Exit x => (Exit x, seedEvents W f)
          | Return (lc, sg) =>
              match overrideOf W f with
              | Err e =>
                  (Exit (ParseLeafNotAfterFailed e), seedEvents W f ++ testDataEvents f)
              | Ok ov =>
                  (Return (mkPrepared cfg lc sg (flagsAtBias f) ov (constructedBias W f)
                             (metricFactoryOf f)),
                   setupEvents W f)
              end
          end
      end.
Proof.
  unfold setupPhase, constructedBias, flagsAtBias, overrideOf, testDataOf.
  unfold setupEvents, seedEvents, testDataEvents, metricFactoryOf, metricsEvents, bannerEvents.
  unfold loadTestData, parseOverride, metricFactory, bind, orExit, emit, ret, exit.
  destruct (String.eqb (logConfig f) ""); [reflexivity|].
  cbn [app].
  destruct (LogConfigFromFile W (logConfig f)) as [cfg|e]; [|reflexivity].
  destruct (String.eqb (testDir f) "").
  - cbn [app leafNotAfter metricsEndpoint banner disableAddChain].
    destruct (String.eqb (leafNotAfter f) "");
      [|destruct (parseRFC3339 W (leafNotAfter f)) as [ov|e]; [|reflexivity]];
      destruct (String.eqb (metricsEndpoint f) ""), (banner f); reflexivity.
  - destruct (GetChain W (testDir f) "leaf01.chain") as [lc|e]; [|reflexivity].
    destruct (MakeSigner W (testDir f)) as [sg|e]; [|reflexivity].
    destruct (String.eqb (leafNotAfter f) "");
      [|destruct (parseRFC3339 W (leafNotAfter f)) as [ov|e]; [|reflexivity]];
      destruct (String.eqb (metricsEndpoint f) ""), (banner f); reflexivity.
Qed.

(** The table a set-up that returns has built. *)
Lemma setupPhase_bias f p tr :
  setupPhase W f [] = (Return p, tr) -> pBias p = constructedBias W f.
Proof.
  rewrite setupPhase_cases.
  destruct (String.eqb (logConfig f) ""); [discriminate|].
  destruct (LogConfigFromFile W (logConfig f)) as [cfg|e]; [|discriminate].
  destruct (testDataOf W f) as [[lc sg]|x]; [|discriminate].
  destruct (overrideOf W f) as [ov|e]; [|discriminate].
  intros [= <- _]. reflexivity.
Qed.

End Setup.

(** C7.  In every run of [main] that gets as far as building the bias
    table, and so in every table a started worker is handed: with no test
    data directory, add-chain and add-pre-chain are keys of the weight
    map, with value 0, not left out; and whatever the flags, each of the
    eight kinds is a key of the weight map and of the invalid-chance
    map. *)
Theorem all_kinds_present (W : World) (f : Flags) :
  distinct_names (names W) ->
  (forall p tr,
      setupPhase W f [] = (Return p, tr) ->
      (testDir f = "" -> addKindsZero (names W) (pBias p)) /\
      allKindsPresent (names W) (pBias p)) /\
  Forall (fun w =>
            (testDir f = "" -> addKindsZero (names W) (EPBias w)) /\
            allKindsPresent (names W) (EPBias w))
    (launched (launchPhase W f []).2).
Proof.
  intros Hd. split.
  - intros p tr Hrun. rewrite (setupPhase_bias W f p tr Hrun).
    apply constructedBias_complete, Hd.
  - apply launchPhase_workers. intros. cbn [EPBias workerConfig].
    apply constructedBias_complete, Hd.
Qed.

(** A run with [--testdata_dir=] and the default add weights of 20: the
    set-up returns a table with both add weights 0 and all eight keys.
    And a run with test data and two logs: both workers are handed a
    table with all eight keys. *)
Lemma all_kinds_present_witness :
  let W := Fixture.world [Fixture.plainLog "A"; Fixture.plainLog "B"] [] in
  (exists p tr,
      setupPhase W (withTestDir Fixture.flags "") [] = (Return p, tr) /\
      addKindsZero Fixture.ctfeNames (pBias p) /\
      allKindsPresent Fixture.ctfeNames (pBias p)) /\
  length (launched (launchPhase W Fixture.flags []).2) = 2%nat /\
  Forall (fun w => allKindsPresent Fixture.ctfeNames (EPBias w))
    (launched (launchPhase W Fixture.flags []).2).
Proof.
  intros W. split; [|split].
  - destruct (setupPhase W (withTestDir Fixture.flags "") []) as [[p|x] tr] eqn:Hrun;
      [|vm_compute in Hrun; discriminate Hrun].
    exists p, tr. split; [reflexivity|].
    destruct (all_kinds_present W (withTestDir Fixture.flags "") distinct_ctfeNames)
      as [Hsetup _].
    destruct (Hsetup p tr Hrun) as [Hzero Hall].
    split; [apply Hzero; reflexivity | exact Hall].
  - vm_compute. reflexivity.
  - destruct (all_kinds_present W Fixture.flags distinct_ctfeNames) as [_ Hworkers].
    eapply Forall_impl; [exact Hworkers|].
    intros w [_ Hall]. exact Hall.
Defined.

(** C8.  [newLimiter] returns nil for the rate 0, which is the flag's
    default, and a limiter made for the rate when the rate is positive;
    and every worker a run starts gets what [newLimiter] returns for the
    rate-limit flag: no limiter when the flag is 0, a limiter with the
    flag's rate when it is positive. *)
Theorem rate_limit_attached (W : World) (f : Flags) :
  limit defaultFlags = 0 /\
  newLimiter 0 = None /\
  (forall rate, 0 < rate -> newLimiter rate = Some (NewLimiter rate)) /\
  (limit f = 0 ->
   Forall (fun cfg => Limiter_ cfg = None) (launched (launchPhase W f []).2)) /\
  (0 < limit f ->
   Forall (fun cfg => Limiter_ cfg = Some (NewLimiter (limit f)))
     (launched (launchPhase W f []).2)).
Proof.
  assert (Hpos : forall rate, 0 < rate -> newLimiter rate = Some (NewLimiter rate)).
  { intros rate Hr. unfold newLimiter. destruct (rate <=? 0) eqn:Hle; [zbool; lia|reflexivity]. }
  split; [reflexivity|]. split; [reflexivity|]. split; [exact Hpos|]. split.
  - intros H0. apply launchPhase_workers. intros. cbn [Limiter_ workerConfig].
    rewrite limit_flagsAtBias, H0. reflexivity.
  - intros Hl. apply launchPhase_workers. intros. cbn [Limiter_ workerConfig].
    rewrite limit_flagsAtBias. apply Hpos, Hl.
Qed.

(** Three logs and [--rate_limit=50]: each of the three workers has a
    limiter of rate 50. *)
Lemma rate_limit_attached_witness :
  let W := Fixture.world [Fixture.plainLog "A"; Fixture.plainLog "B"; Fixture.plainLog "C"] [] in
  newLimiter 50 = Some (NewLimiter 50) /\
  Forall (fun cfg => Limiter_ cfg = Some (NewLimiter 50))
    (launched (launchPhase W (withLimit Fixture.flags 50) []).2).
Proof.
  intros W.
  destruct (rate_limit_attached W (withLimit Fixture.flags 50)) as (_ & _ & Hnew & _ & Hrun).
  split; [apply Hnew; reflexivity | apply Hrun; reflexivity].
Defined.

(** ** The notAfter override *)

(** C5, as amended.  Whenever a leaf-not-after override is supplied and
    parses to a time other than the zero time, that time is used verbatim
    as the notAfter of every log's chain generator, and [notAfterForLog]
    is not called for any log. *)
Theorem override_used_verbatim (W : World) (f : Flags) (t : Time) :
  leafNotAfter f <> "" ->
  parseRFC3339 W (leafNotAfter f) = Ok t ->
  IsZero t = false ->
  usedVerbatim W f t.
Proof.
  intros Hset Hparse Hnz.
  assert (Hov : overrideOf W f = Ok t).
  { unfold overrideOf. destruct (String.eqb_spec (leafNotAfter f) ""); [contradiction|exact Hparse]. }
  split.
  - destruct (launchPhase W f []) as [o tr] eqn:Hrun. cbn [snd].
    apply launchPhase_inv in Hrun
      as [(x & _ & _ & _ & Hc)|(cfg & lc & sg & ov & mf & tr0 & o' & _ & Hov' & _ & Hc0 & Hloop & _)];
      [exact Hc|].
    rewrite Hov in Hov'. injection Hov' as <-.
    apply launchAll_not_consulted in Hloop; [|exact Hnz]. congruence.
  - apply launchPhase_workers. intros ov lc sg mf i c t' Hov' Ht'.
    rewrite Hov in Hov'. injection Hov' as <-. rewrite Hnz in Ht'.
    cbn [generatorNotAfter ChainGenerator_ workerConfig]. exact Ht'.
Qed.

(** The usage text's [--leaf_not_after=2017-11-26T12:29:19Z], with three
    logs of which one has shard bounds. *)
Lemma override_used_verbatim_witness :
  usedVerbatim
    (Fixture.world
       [Fixture.plainLog "A";
        Fixture.shardLog "B" (Some (mkTimestamp 1500000000 0)) (Some (mkTimestamp 1600000000 0));
        Fixture.plainLog "C"] [])
    (withLeafNotAfter Fixture.flags "2017-11-26T12:29:19Z")
    (Fixture.date 2017 11 26 12 29 19).
Proof.
  apply override_used_verbatim.
  - discriminate.
  - reflexivity.
  - reflexivity.
Defined.

(** C5, as stated, fails.  [--leaf_not_after=0001-01-01T00:00:00Z] is
    supplied and parses, to the zero time; for the log with the start
    bound 2017-07-14T02:40:00Z [notAfterForLog] is called, and the
    generator's notAfter is a day after that bound, not the override. *)
Lemma override_zero_not_used :
  let W := Fixture.world [Fixture.shardLog "A" (Some (mkTimestamp 1500000000 0)) None] [] in
  let f := withLeafNotAfter Fixture.flags "0001-01-01T00:00:00Z" in
  leafNotAfter f <> "" /\
  parseRFC3339 W (leafNotAfter f) = Ok zeroTime /\
  consulted (launchPhase W f []).2
    = [Fixture.shardLog "A" (Some (mkTimestamp 1500000000 0)) None] /\
  map (fun cfg => generatorNotAfter (ChainGenerator_ cfg)) (launched (launchPhase W f []).2)
    = [Unix 1500086400 0] /\
  ~ usedVerbatim W f zeroTime.
Proof.
  intros W f.
  assert (Hc : consulted (launchPhase W f []).2
               = [Fixture.shardLog "A" (Some (mkTimestamp 1500000000 0)) None])
    by (vm_compute; reflexivity).
  split; [discriminate|]. split; [reflexivity|]. split; [exact Hc|].
  split; [vm_compute; reflexivity|].
  intros [Hnone _]. rewrite Hc in Hnone. discriminate Hnone.
Qed.

(** Closes the comparison of two runs that have reached the loop with the
    same logs, test data, override and trace, and with flags and tables
    that agree on what the loop reads. *)
Ltac same_loop W :=
  match goal with
  | |- context [launchAll W ?F1 ?lc ?sg ?ov ?b1 ?mf ?i ?cfg ?tr] =>
      match goal with
      | |- _ = ?rhs =>
          match rhs with
          | context [launchAll W ?F2 lc sg ov ?b2 mf i cfg tr] =>
              change b2 with b1;
              rewrite (launchAll_flags W F2 F1 lc sg ov b1 mf cfg i tr)
                by reflexivity;
              reflexivity
          end
      end
  end.

Section ZeroOverride.

Context (W : World).

(** The zero time is the only time [IsZero] accepts. *)
Lemma IsZero_zeroTime t : IsZero t = true -> t = zeroTime.
Proof.
  destruct t as [s n]. unfold IsZero. cbn [sec nsec]. intros H. zbool.
  subst. reflexivity.
Qed.

(** A run whose override parses to the zero time goes as the run with
    the flag left out. *)
Lemma launchPhase_zero_override f t :
  parseRFC3339 W (leafNotAfter f) = Ok t -> IsZero t = true ->
  launchPhase W f [] = launchPhase W (withLeafNotAfter f "") [].
Proof.
  intros Hparse Hz. apply IsZero_zeroTime in Hz. subst t.
  destruct f. cbn [leafNotAfter] in Hparse.
  unfold launchPhase, setupPhase, withLeafNotAfter, effectiveSeed.
  unfold loadTestData, parseOverride, metricFactory, bind, orExit, emit, ret, exit.
  cbn [banner httpServers testDir leafNotAfter metricsEndpoint seed logConfig
       disableAddChain].
  destruct (String.eqb logConfig0 ""); [reflexivity|].
  destruct (LogConfigFromFile W logConfig0) as [cfg|e]; [|reflexivity].
  destruct (String.eqb testDir0 "").
  - cbn [banner leafNotAfter metricsEndpoint disableAddChain].
    destruct (String.eqb leafNotAfter0 ""); rewrite ?Hparse;
      destruct (String.eqb metricsEndpoint0 ""), banner0; cbn [app String.eqb pCfg pLeafChain pSigner pFlags pNotAfterOverride pBias pMetricFactory];
      same_loop W.
  - destruct (GetChain W testDir0 "leaf01.chain"); [|reflexivity].
    destruct (MakeSigner W testDir0); [|reflexivity].
    cbn [banner leafNotAfter metricsEndpoint].
    destruct (String.eqb leafNotAfter0 ""); rewrite ?Hparse;
      destruct (String.eqb metricsEndpoint0 ""), banner0; cbn [app String.eqb pCfg pLeafChain pSigner pFlags pNotAfterOverride pBias pMetricFactory];
      same_loop W.
Qed.

End ZeroOverride.

(** C10.  If the supplied leaf-not-after override parses to the zero
    time, the run goes as if the flag had been left out: every worker
    started has the notAfter that [notAfterForLog] returned for its log,
    and a launch phase that gets through every log has called
    [notAfterForLog] once for each configured log, in order. *)
Theorem zero_override_treated_as_absent (W : World) (f : Flags) (t : Time) :
  parseRFC3339 W (leafNotAfter f) = Ok t ->
  IsZero t = true ->
  launchPhase W f [] = launchPhase W (withLeafNotAfter f "") [] /\
  Forall (fun cfg => exists i,
              notAfterForLog (clockAtLog W i) (LogCfg cfg)
              = Ok (generatorNotAfter (ChainGenerator_ cfg)))
    (launched (launchPhase W f []).2) /\
  (forall n tr cfg,
      launchPhase W f [] = (Return n, tr) ->
      LogConfigFromFile W (logConfig f) = Ok cfg ->
      consulted tr = cfg).
Proof.
  intros Hparse Hz.
  assert (Hov : forall ov, overrideOf W f = Ok ov -> IsZero ov = true).
  { unfold overrideOf. intros ov. destruct (String.eqb (leafNotAfter f) "").
    - intros [= <-]. reflexivity.
    - rewrite Hparse. intros [= <-]. exact Hz. }
  split; [exact (launchPhase_zero_override W f t Hparse Hz)|]. split.
  - apply launchPhase_workers. intros ov lc sg mf i c t' Hov' Ht'.
    rewrite (Hov ov Hov') in Ht'. exists i.
    cbn [LogCfg generatorNotAfter ChainGenerator_ workerConfig]. exact Ht'.
  - intros n tr cfg Hrun Hcfg.
    apply launchPhase_inv in Hrun
      as [(x & Hx & _)|(cfg' & lc & sg & ov & mf & tr0 & o' & Hcfg' & Hov' & _ & Hc0 & Hloop & Ho)];
      [discriminate Hx|].
    rewrite Hcfg in Hcfg'. injection Hcfg' as <-.
    destruct o' as [u|x]; [|discriminate Ho].
    apply launchAll_consulted in Hloop; [|exact (Hov ov Hov')].
    rewrite Hloop, Hc0. reflexivity.
Qed.

(** [--leaf_not_after=0001-01-01T00:00:00Z] with two logs. *)
Lemma zero_override_treated_as_absent_witness :
  let W := Fixture.world
             [Fixture.shardLog "A" (Some (mkTimestamp 1500000000 0)) None;
              Fixture.plainLog "B"] [] in
  let f := withLeafNotAfter Fixture.flags "0001-01-01T00:00:00Z" in
  launchPhase W f [] = launchPhase W (withLeafNotAfter f "") [] /\
  Forall (fun cfg => exists i,
              notAfterForLog (clockAtLog W i) (LogCfg cfg)
              = Ok (generatorNotAfter (ChainGenerator_ cfg)))
    (launched (launchPhase W f []).2) /\
  (forall n tr cfg,
      launchPhase W f [] = (Return n, tr) ->
      LogConfigFromFile W (logConfig f) = Ok cfg ->
      consulted tr = cfg).
Proof.
  intros W f.
  apply (zero_override_treated_as_absent W f zeroTime).
  - reflexivity.
  - reflexivity.
Defined.

(** ** Fatal configuration errors *)

(** C6, as amended.  A fatal configuration error ends the run where it
    is found.  Found before the loop over the logs, no worker has been
    started.  Found while a log is prepared (a malformed shard bound, a
    client pool or a chain generator that cannot be built), the workers of
    the logs before it in the config file have been started, and neither
    its worker nor one of a later log; for a malformed shard bound the
    exit names that log's prefix. *)
Theorem fatal_exit_stops_remaining_logs (W : World) (f : Flags) (x : Fatal) (tr : list Event) :
  launchPhase W f [] = (Exit x, tr) ->
  match stage x with
  | BeforeLoop => launched tr = []
  | InLoop =>
      exists pre c post,
        LogConfigFromFile W (logConfig f) = Ok (pre ++ c :: post) /\
        map LogCfg (launched tr) = pre /\
        forall p e, x = DetermineNotAfterFailed p e ->
                    p = Prefix c /\
                    notAfterForLog (clockAtLog W (length pre)) c = Err e
  | AfterWait => False
  end.
Proof.
  intros Hrun.
  apply launchPhase_inv in Hrun
    as [(x' & [= <-] & -> & Hl & _)
       |(cfg & lc & sg & ov & mf & tr0 & o' & Hcfg & _ & Hl0 & _ & Hloop & Ho)];
    [exact Hl|].
  destruct o' as [u|x']; [discriminate Ho|]. injection Ho as ->.
  apply launchAll_prefix in Hloop as (pre & rest & -> & Hl & -> & c & post & -> & Hx).
  exists pre, c, post. split; [exact Hcfg|]. split.
  - rewrite Hl, Hl0. reflexivity.
  - intros p e Heq. destruct (Hx p e Heq) as (Hp & _ & He). auto.
Qed.

(** Two logs, the second with a negative Nanos in its start bound: the
    run exits on the second log, after the first log's worker has been
    started. *)
Lemma fatal_exit_stops_remaining_logs_witness :
  let good := Fixture.plainLog "good" in
  let bad := Fixture.shardLog "bad" (Some (mkTimestamp 1500000000 (-1))) None in
  let W := Fixture.world [good; bad] [] in
  exists pre c post,
    LogConfigFromFile W (logConfig Fixture.flags) = Ok (pre ++ c :: post) /\
    map LogCfg (launched (launchPhase W Fixture.flags []).2) = pre /\
    forall p e,
      DetermineNotAfterFailed "bad"
        (Errorf "failed to parse NotAfterStart"
           (ErrTimestampNanos (mkTimestamp 1500000000 (-1))))
      = DetermineNotAfterFailed p e ->
      p = Prefix c /\ notAfterForLog (clockAtLog W (length pre)) c = Err e.
Proof.
  intros good bad W.
  apply (fatal_exit_stops_remaining_logs W Fixture.flags
           (DetermineNotAfterFailed "bad"
              (Errorf "failed to parse NotAfterStart"
                 (ErrTimestampNanos (mkTimestamp 1500000000 (-1)))))
           (launchPhase W Fixture.flags []).2).
  vm_compute. reflexivity.
Defined.

(** C6, as stated, fails.  With the two logs above the run exits for the
    malformed bound of the second log, and the [go] statement for the
    first log's worker has been executed. *)
Lemma worker_started_before_fatal_exit :
  let good := Fixture.plainLog "good" in
  let bad := Fixture.shardLog "bad" (Some (mkTimestamp 1500000000 (-1))) None in
  let W := Fixture.world [good; bad] [] in
  (launchPhase W Fixture.flags []).1
    = Exit (DetermineNotAfterFailed "bad"
              (Errorf "failed to parse NotAfterStart"
                 (ErrTimestampNanos (mkTimestamp 1500000000 (-1))))) /\
  map LogCfg (launched (launchPhase W Fixture.flags []).2) = [good] /\
  ~ noWorkerStarted W Fixture.flags.
Proof.
  intros good bad W.
  assert (Hl : map LogCfg (launched (launchPhase W Fixture.flags []).2) = [good])
    by (vm_compute; reflexivity).
  split; [vm_compute; reflexivity|]. split; [exact Hl|].
  unfold noWorkerStarted. intros Hnone. rewrite Hnone in Hl. discriminate Hl.
Qed.

(** ** The bias table is not inspected *)

(** Closes the comparison of a run with the run that differs in the bias
    weights only, once both have reached the loop. *)
Ltac other_table W :=
  match goal with
  | |- context [launchAll W ?F0 ?lc ?sg ?ov ?b0 ?mf ?i ?cfg ?tr] =>
      match goal with
      | |- _ = ?rhs =>
          match rhs with
          | context [launchAll W ?F lc sg ov ?b mf i cfg tr] =>
              let o' := fresh "o" in
              let tr' := fresh "tr" in
              let Hloop := fresh "Hloop" in
              destruct (launchAll W F lc sg ov b mf i cfg tr) as [o' tr'] eqn:Hloop;
              apply (launchAll_bias W F lc sg ov b b0 mf cfg i tr o' tr') in Hloop;
              rewrite (launchAll_flags W F0 F lc sg ov b0 mf cfg i tr) by reflexivity;
              change (map (setEventBias b0) tr) with tr in Hloop;
              rewrite Hloop; destruct o'; reflexivity
          end
      end
  end.

Section Weights.

Context (W : World).

Lemma allZero_withWeights f : allZero (constructedBias W (withWeights f 0)).
Proof.
  intros k w Hk. unfold constructedBias in Hk. rewrite <- Bias_keys in Hk.
  apply elem_of_list_to_map_2 in Hk.
  unfold flagsAtBias in Hk.
  destruct (String.eqb (testDir (withWeights f 0)) "");
    cbn [withWeights disableAddChain addChainBias addPreChainBias getSTHBias
         getSTHConsistencyBias getProofByHashBias getEntriesBias getRootsBias
         getEntryAndProofBias] in Hk;
    rewrite !elem_of_cons, elem_of_nil in Hk;
    repeat (destruct Hk as [Hk|Hk]; [injection Hk as _ ->; reflexivity|]);
    destruct Hk.
Qed.

(** The run with every weight set to 0 takes the course of the run
    with the weights of [f], and hands its own table to the workers. *)
Lemma launchPhase_withWeights f :
  launchPhase W (withWeights f 0) []
  = ((launchPhase W f []).1,
     map (setEventBias (constructedBias W (withWeights f 0))) (launchPhase W f []).2).
Proof.
  destruct f.
  unfold constructedBias, flagsAtBias, launchPhase, setupPhase, withWeights, effectiveSeed.
  unfold loadTestData, parseOverride, metricFactory, bind, orExit, emit, ret, exit.
  cbn [banner httpServers testDir leafNotAfter metricsEndpoint seed logConfig
       disableAddChain].
  destruct (String.eqb logConfig0 ""); [reflexivity|].
  destruct (LogConfigFromFile W logConfig0) as [cfg|e]; [|reflexivity].
  destruct (String.eqb testDir0 "").
  - cbn [banner leafNotAfter metricsEndpoint disableAddChain].
    destruct (String.eqb leafNotAfter0 "");
      [|destruct (parseRFC3339 W leafNotAfter0) as [ov|e]; [|reflexivity]];
      destruct (String.eqb metricsEndpoint0 ""), banner0; cbn [app fst snd pCfg pLeafChain pSigner pFlags pNotAfterOverride pBias pMetricFactory];
      other_table W.
  - destruct (GetChain W testDir0 "leaf01.chain") as [lc|e]; [|reflexivity].
    destruct (MakeSigner W testDir0) as [sg|e]; [|reflexivity].
    cbn [banner leafNotAfter metricsEndpoint].
    destruct (String.eqb leafNotAfter0 "");
      [|destruct (parseRFC3339 W leafNotAfter0) as [ov|e]; [|reflexivity]];
      destruct (String.eqb metricsEndpoint0 ""), banner0; cbn [app fst snd pCfg pLeafChain pSigner pFlags pNotAfterOverride pBias pMetricFactory];
      other_table W.
Qed.

End Weights.

(** C3, as amended.  [main] does not inspect the bias weights.  The run
    with every weight 0 builds the all-zero table, takes the same course
    as the run with any other weights (the same exit, or the same workers
    started in the same order), and hands the all-zero table to each
    worker it starts; what becomes of it is the worker library's
    business. *)
Theorem zero_weights_not_checked (W : World) (f : Flags) :
  let b0 := constructedBias W (withWeights f 0) in
  allZero b0 /\
  launchPhase W (withWeights f 0) []
    = ((launchPhase W f []).1, map (setEventBias b0) (launchPhase W f []).2) /\
  Forall (fun cfg => EPBias cfg = b0) (launched (launchPhase W (withWeights f 0) []).2).
Proof.
  intros b0. split; [apply allZero_withWeights|]. split; [apply launchPhase_withWeights|].
  apply launchPhase_workers. intros. reflexivity.
Qed.

(** C3, as stated, fails.  With one log and every weight 0, the table is
    all-zero, the launch phase returns, and the worker of the log has
    been started. *)
Lemma zero_weights_start_workers :
  let W := Fixture.world [Fixture.plainLog "A"] [] in
  let f := withWeights Fixture.flags 0 in
  allZero (constructedBias W f) /\
  (launchPhase W f []).1 = Return 1%nat /\
  map LogCfg (launched (launchPhase W f []).2) = [Fixture.plainLog "A"] /\
  ~ abortsBeforeWorkers W f.
Proof.
  intros W f.
  split; [apply (allZero_withWeights W Fixture.flags)|].
  assert (Hret : (launchPhase W f []).1 = Return 1%nat) by (vm_compute; reflexivity).
  split; [exact Hret|]. split; [vm_compute; reflexivity|].
  intros [[x Hx] _]. rewrite Hret in Hx. discriminate Hx.
Qed.

(** ** The verdict *)

Section Quiet.

Context (W : World).

Lemma quiet_ret {A} (a : A) : quiet (ret a).
Proof. intros tr o tr' [= <- <-]. reflexivity. Qed.

Lemma quiet_exit {A} (x : Fatal) : quiet (exit (A := A) x).
Proof. intros tr o tr' [= <- <-]. reflexivity. Qed.

Lemma quiet_emit e : (forall p x, e <> ErrorFailed p x) -> quiet (emit e).
Proof.
  intros He tr o tr' [= <- <-]. rewrite reported_app.
  destruct e; cbn [reported]; rewrite ?app_nil_r; try reflexivity.
  exfalso. eapply He. reflexivity.
Qed.

Lemma quiet_bind {A B} (m : M A) (k : A -> M B) :
  quiet m -> (forall a, quiet (k a)) -> quiet (bind m k).
Proof.
  intros Hm Hk tr o tr'. unfold bind.
  destruct (m tr) as [[a|x] tr1] eqn:Hrun.
  - intros Hkrun. apply Hk in Hkrun. apply Hm in Hrun. congruence.
  - intros [= <- <-]. apply Hm in Hrun. exact Hrun.
Qed.

Lemma quiet_orExit {A} (r : result A) g : quiet (orExit r g).
Proof. destruct r; [apply quiet_ret | apply quiet_exit]. Qed.

Lemma quiet_checkErr e g : quiet (checkErr e g).
Proof. destruct e; [apply quiet_exit | apply quiet_ret]. Qed.

Lemma quiet_launchLog f lc sg ov b mf i c : quiet (launchLog W f lc sg ov b mf i c).
Proof.
  unfold launchLog.
  apply quiet_bind; [apply quiet_checkErr|intros _].
  apply quiet_bind.
  - destruct (IsZero ov); [|apply quiet_ret].
    apply quiet_bind; [apply quiet_emit; discriminate|intros _].
    apply quiet_orExit.
  - intros t. apply quiet_bind; [apply quiet_checkErr|intros _].
    apply quiet_emit. discriminate.
Qed.

Lemma quiet_launchAll f lc sg ov b mf cfgs : forall i,
  quiet (launchAll W f lc sg ov b mf i cfgs).
Proof.
  induction cfgs as [|c rest IH]; intros i; cbn [launchAll].
  - apply quiet_ret.
  - apply quiet_bind; [apply quiet_launchLog|intros _; apply IH].
Qed.

Lemma quiet_setupPhase f : quiet (setupPhase W f).
Proof.
  unfold setupPhase.
  apply quiet_bind; [destruct (String.eqb (logConfig f) ""); [apply quiet_exit|apply quiet_ret]|intros _].
  apply quiet_bind; [apply quiet_emit; discriminate|intros _].
  apply quiet_bind; [apply quiet_emit; discriminate|intros _].
  apply quiet_bind; [apply quiet_orExit|intros cfg].
  apply quiet_bind.
  { unfold loadTestData. destruct (String.eqb (testDir f) "").
    - apply quiet_bind; [apply quiet_emit; discriminate|intros _; apply quiet_ret].
    - apply quiet_bind; [apply quiet_orExit|intros lc].
      apply quiet_bind; [apply quiet_orExit|intros sg]. apply quiet_ret. }
  intros [[lc sg] f'].
  apply quiet_bind.
  { unfold parseOverride. destruct (String.eqb (leafNotAfter f') "");
      [apply quiet_ret|apply quiet_orExit]. }
  intros ov.
  apply quiet_bind.
  { unfold metricFactory. destruct (String.eqb (metricsEndpoint f') "");
      [apply quiet_ret|].
    apply quiet_bind; [apply quiet_emit; discriminate|intros _; apply quiet_ret]. }
  intros mf.
  apply quiet_bind; [destruct (banner f'); [apply quiet_emit; discriminate|apply quiet_ret]|intros _].
  apply quiet_ret.
Qed.

Lemma quiet_launchPhase f : quiet (launchPhase W f).
Proof.
  unfold launchPhase.
  apply quiet_bind; [apply quiet_setupPhase|intros p].
  apply quiet_bind; [apply quiet_launchAll|intros _; apply quiet_ret].
Qed.

End Quiet.

Section Verdict.

Context (W : World).

Lemma failedPrefixes_nil_iff rs :
  failedPrefixes rs = [] <-> Forall (fun r => err r = None) rs.
Proof.
  unfold failedPrefixes. induction rs as [|r rs IH]; cbn [omap list_omap].
  - split; [intros _; apply Forall_nil; exact I | reflexivity].
  - destruct (err r) as [e|] eqn:He.
    + split; [discriminate|]. intros H. apply Forall_cons in H as [H _]. congruence.
    + rewrite IH. split.
      * intros H. apply Forall_cons. split; assumption.
      * intros H. apply Forall_cons in H as [_ H]. exact H.
Qed.

Lemma failedPrefixes_length rs : (length (failedPrefixes rs) <= length rs)%nat.
Proof.
  unfold failedPrefixes. induction rs as [|r rs IH]; cbn [omap list_omap length]; [lia|].
  destruct (err r); cbn [length]; lia.
Qed.

Lemma failedPrefixes_perm rs rs' : rs ≡ₚ rs' -> failedPrefixes rs ≡ₚ failedPrefixes rs'.
Proof. intros H. unfold failedPrefixes. rewrite H. reflexivity. Qed.

(** The loop over the results logs the failing logs in order and counts
    them; no count wraps while the results are fewer than [2^63]. *)
Lemma countErrors_spec received : forall k tr,
  0 <= k -> k + Z.of_nat (length received) < 2 ^ 63 ->
  exists tr',
    countErrors k received tr
      = (Return (k + Z.of_nat (length (failedPrefixes received))), tr') /\
    reported tr' = reported tr ++ failedPrefixes received /\
    launched tr' = launched tr.
Proof.
  unfold failedPrefixes.
  induction received as [|r rest IH]; intros k tr Hk Hlen; cbn [countErrors omap list_omap].
  - exists tr. cbn [length]. rewrite Z.add_0_r, app_nil_r. auto.
  - cbn [length] in Hlen. destruct (err r) as [e|].
    + unfold bind, emit.
      rewrite wrap64_id by (unfold in_int64; lia).
      destruct (IH (k + 1) (tr ++ [ErrorFailed (prefix r) e]) ltac:(lia) ltac:(lia))
        as (tr' & Hrun & Hrep & Hl).
      exists tr'. rewrite Hrun. split; [|split].
      * f_equal. f_equal. cbn [length]. lia.
      * rewrite Hrep. trace_simpl. rewrite <- app_assoc. reflexivity.
      * rewrite Hl. trace_simpl. reflexivity.
    + apply IH; lia.
Qed.

(** After [wg.Wait()]: success exactly when no result carries an error,
    otherwise the exit with the number of failures; every failing log
    is logged by its prefix. *)
Lemma collectPhase_spec n received tr :
  Z.of_nat (length received) < 2 ^ 63 ->
  exists o tr',
    collectPhase n received tr = (o, tr') /\
    reported tr' = reported tr ++ failedPrefixes received /\
    (o = Return tt <-> Forall (fun r => err r = None) received) /\
    (o <> Return tt ->
     o = Exit (NonZeroErrorCount (Z.of_nat (length (failedPrefixes received))))).
Proof.
  intros Hlen. unfold collectPhase, bind, emit.
  destruct (countErrors_spec received 0 (tr ++ [InfoCompleted n]) ltac:(lia) ltac:(lia))
    as (tr1 & Hrun & Hrep & _).
  rewrite Hrun. cbn [Z.add].
  rewrite reported_app in Hrep. cbn [reported] in Hrep. rewrite app_nil_r in Hrep.
  destruct (failedPrefixes received) as [|p ps] eqn:Hf.
  - cbn [length Z.of_nat Z.ltb Z.compare]. unfold ret.
    eexists _, _. split; [reflexivity|]. split.
    + trace_simpl. rewrite Hrep. apply app_nil_r.
    + split; [|intros H; contradiction].
      split; [intros _; apply failedPrefixes_nil_iff, Hf | reflexivity].
  - destruct (0 <? Z.of_nat (length (p :: ps))) eqn:Hpos;
      [|zbool; cbn [length] in Hpos; lia].
    unfold exit. eexists _, _. split; [reflexivity|]. split; [exact Hrep|].
    split; [|reflexivity].
    split; [discriminate|].
    intros H. apply failedPrefixes_nil_iff in H. congruence.
Qed.

End Verdict.

(** C2.  For a run that has started its workers, all of which have
    returned and sent their result: [main] ends in success if and only if
    no worker's result carries an error; otherwise it exits with failure,
    on the count of errors; and the prefixes logged as failed are exactly
    the prefixes of the workers whose result carries an error. *)
Theorem verdict_reports_failing_logs (W : World) (f : Flags)
    (n : nat) (tr0 : list Event) (received : list WorkerResult) :
  launchPhase W f [] = (Return n, tr0) ->
  allReported W tr0 received ->
  Z.of_nat n < 2 ^ 63 ->
  exists o tr,
    main W f received [] = (o, tr) /\
    (o = Return tt <-> Forall (fun cfg => err (workerResult W cfg) = None) (launched tr0)) /\
    (o <> Return tt -> exists k, 0 < k /\ o = Exit (NonZeroErrorCount k)) /\
    reported tr ≡ₚ failedPrefixes (map (workerResult W) (launched tr0)).
Proof.
  intros Hrun Hall Hn. unfold allReported in Hall.
  assert (Hlen : length received = n).
  { rewrite Hall, length_map.
    apply one_worker_per_log in Hrun as (cfg & _ & -> & <-).
    rewrite length_map. reflexivity. }
  destruct (collectPhase_spec n received tr0 ltac:(lia)) as (o & tr & Hcol & Hrep & Hok & Hko).
  exists o, tr. split; [|split; [|split]].
  - unfold main, bind. rewrite Hrun. exact Hcol.
  - rewrite Hok, Hall, Forall_map. reflexivity.
  - intros Hne. specialize (Hko Hne). eexists. split; [|exact Hko].
    destruct (failedPrefixes received) as [|p ps] eqn:Hf; [|cbn [length]; lia].
    exfalso. apply Hne, Hok, failedPrefixes_nil_iff, Hf.
  - rewrite Hrep.
    rewrite (quiet_launchPhase W f [] _ _ Hrun). cbn [reported app].
    apply failedPrefixes_perm, Hall.
Qed.

(** Section 8's example: three logs, A and C succeed and B fails; the
    results arrive in the order C, B, A. *)
Lemma verdict_reports_failing_logs_witness :
  let W := Fixture.world
             [Fixture.plainLog "A"; Fixture.plainLog "B"; Fixture.plainLog "C"] ["B"] in
  let tr0 := (launchPhase W Fixture.flags []).2 in
  let received := reverse (map (workerResult W) (launched tr0)) in
  exists o tr,
    main W Fixture.flags received [] = (o, tr) /\
    (o = Return tt <-> Forall (fun cfg => err (workerResult W cfg) = None) (launched tr0)) /\
    (o <> Return tt -> exists k, 0 < k /\ o = Exit (NonZeroErrorCount k)) /\
    reported tr ≡ₚ failedPrefixes (map (workerResult W) (launched tr0)).
Proof.
  intros W tr0 received.
  apply (verdict_reports_failing_logs W Fixture.flags 3 tr0 received).
  - vm_compute. reflexivity.
  - unfold allReported, received. apply reverse_Permutation.
  - vm_compute. reflexivity.
Defined.

(** On that example the exit is on one error, and the one prefix logged
    is B. *)
Example verdict_three_logs :
  let W := Fixture.world
             [Fixture.plainLog "A"; Fixture.plainLog "B"; Fixture.plainLog "C"] ["B"] in
  let tr0 := (launchPhase W Fixture.flags []).2 in
  let r := main W Fixture.flags (reverse (map (workerResult W) (launched tr0))) [] in
  r.1 = Exit (NonZeroErrorCount 1) /\ reported r.2 = ["B"].
Proof. vm_compute. split; reflexivity. Qed.

(** ** The seed *)

Section Seed.

Context (W : World).



End Seed.

(** * Further properties of [main.go] *)

(** ** The launch phase in closed form *)

Section ClosedForm.

Context (W : World).

(** The launch phase, exit by exit: no log config, an unreadable log
    config, test data that does not load, an override that does not
    parse, and then the loop, entered with the events of the set-up
    behind it. *)
Lemma launchPhase_cases f :
  launchPhase W f [] =
    if String.eqb (logConfig f) "" then (Exit NoLogConfig, [])
    else
      match LogConfigFromFile W (logConfig f) with
      | Err e => (Exit (ReadLogConfigFailed e), seedEvents W f)
      | Ok cfg =>
          match testDataOf W f with
          | Exit x => (Exit x, seedEvents W f)
          | Return (lc, sg) =>
              match overrideOf W f with
              | Err e =>
                  (Exit (ParseLeafNotAfterFailed e), seedEvents W f ++ testDataEvents f)
              | Ok ov =>
                  let '(o, tr) :=
                    launchAll W (flagsAtBias f) lc sg ov (constructedBias W f)
                      (metricFactoryOf f) 0 cfg (setupEvents W f) in
                  (launchOutcome cfg o, tr)
              end
          end
      end.
Proof.
  unfold launchPhase, setupPhase, constructedBias, flagsAtBias, overrideOf, testDataOf.
  unfold setupEvents, seedEvents, testDataEvents, metricFactoryOf, metricsEvents, bannerEvents.
  unfold loadTestData, parseOverride, metricFactory, bind, orExit, emit, ret, exit.
  destruct (String.eqb (logConfig f) ""); [reflexivity|].
  cbn [app].
  destruct (LogConfigFromFile W (logConfig f)) as [cfg|e]; [|reflexivity].
  destruct (String.eqb (testDir f) "").
  - cbn [app leafNotAfter metricsEndpoint banner disableAddChain].
    destruct (String.eqb (leafNotAfter f) "");
      [|destruct (parseRFC3339 W (leafNotAfter f)) as [ov|e]; [|reflexivity]];
      destruct (String.eqb (metricsEndpoint f) ""), (banner f); cbn [app pCfg pLeafChain pSigner pFlags pNotAfterOverride pBias pMetricFactory];
      match goal with
      | |- context [launchAll W ?F ?lc ?sg ?ov ?b ?mf ?i ?cfg ?tr] =>
          destruct (launchAll W F lc sg ov b mf i cfg tr) as [[u|x] tr']; reflexivity
      end.
  - destruct (GetChain W (testDir f) "leaf01.chain") as [lc|e]; [|reflexivity].
    destruct (MakeSigner W (testDir f)) as [sg|e]; [|reflexivity].
    destruct (String.eqb (leafNotAfter f) "");
      [|destruct (parseRFC3339 W (leafNotAfter f)) as [ov|e]; [|reflexivity]];
      destruct (String.eqb (metricsEndpoint f) ""), (banner f); cbn [app pCfg pLeafChain pSigner pFlags pNotAfterOverride pBias pMetricFactory];
      match goal with
      | |- context [launchAll W ?F ?lc ?sg ?ov ?b ?mf ?i ?cfg ?tr] =>
          destruct (launchAll W F lc sg ov b mf i cfg tr) as [[u|x] tr']; reflexivity
      end.
Qed.

(** The loop only appends to the trace, and only calls of
    [notAfterForLog] and [go] statements. *)
Lemma launchAll_events f lc sg ov b mf cfgs : forall i tr o tr',
  launchAll W f lc sg ov b mf i cfgs tr = (o, tr') ->
  exists d, tr' = tr ++ d /\ Forall loopEvent d.
Proof.
  induction cfgs as [|c rest IH]; intros i tr o tr' Hrun.
  - cbn in Hrun. injection Hrun as <- <-. exists []. rewrite app_nil_r.
    split; [reflexivity | apply Forall_nil; exact I].
  - rewrite launchAll_cons, launchLog_cases in Hrun.
    assert (Hc : Forall loopEvent (if IsZero ov then [CallNotAfterForLog c] else [])).
    { destruct (IsZero ov); repeat constructor. }
    destruct (NewRandomPoolErr W (httpServers f) (PublicKey c) (Prefix c)) as [e|].
    { injection Hrun as <- <-. exists []. rewrite app_nil_r.
      split; [reflexivity | apply Forall_nil; exact I]. }
    destruct (if IsZero ov then notAfterForLog (clockAtLog W i) c else Ok ov) as [t|e].
    + destruct (NewSyntheticChainGeneratorErr W lc sg t) as [e|].
      { injection Hrun as <- <-. eexists. split; [reflexivity | exact Hc]. }
      apply IH in Hrun as (d & -> & Hd).
      eexists. split; [rewrite <- !app_assoc; reflexivity|].
      apply Forall_app. split; [exact Hc|].
      apply Forall_cons. split; [exact I | exact Hd].
    + injection Hrun as <- <-. eexists. split; [reflexivity | exact Hc].
Qed.

End ClosedForm.

(** ** More on the temporal window calculator *)

(** X1.  [notAfterForLog] returns an error exactly when a bound that is
    set is not a valid Timestamp; in particular it returns a time for
    every configuration of valid bounds, however far apart or far away
    they are. *)
Theorem notAfterForLog_error_iff (now : Time) (c : LogConfig) :
  (exists e, notAfterForLog now c = Err e) <-> ~ validBounds c.
Proof.
  unfold notAfterForLog, validBounds, validBound, ptypes.Timestamp.
  destruct (NotAfterStart c) as [s|], (NotAfterLimit c) as [l|].
  - destruct (ptypes.validateTimestamp (Some s)) as [es|].
    { split; [intros _ [H _]; discriminate H | eauto]. }
    destruct (ptypes.validateTimestamp (Some l)) as [el|].
    { split; [intros _ [_ H]; discriminate H | eauto]. }
    split; [intros [e H]; discriminate H | intros H; exfalso; apply H; auto].
  - destruct (ptypes.validateTimestamp (Some s)) as [es|].
    { split; [intros _ [H _]; discriminate H | eauto]. }
    split; [intros [e H]; discriminate H | intros H; exfalso; apply H; auto].
  - destruct (ptypes.validateTimestamp (Some l)) as [el|].
    { split; [intros _ [_ H]; discriminate H | eauto]. }
    split; [intros [e H]; discriminate H | intros H; exfalso; apply H; auto].
  - split; [intros [e H]; discriminate H | intros H; exfalso; apply H; auto].
Qed.

(** X2.  For valid bounds within the reach of the midpoint computation,
    with the start strictly before the limit when both are set, the time
    returned lies in the log's shard: not before the start bound, and
    before the limit bound. *)
Theorem notAfterForLog_within_shard (now : Time) (c : LogConfig) (t : Time) :
  validBounds c -> midpointRepresentable c -> orderedBounds c ->
  notAfterForLog now c = Ok t ->
  inShard c (instant t).
Proof.
  intros [Hvs Hvl] Hmid Hord.
  unfold notAfterForLog, midpointRepresentable, orderedBounds, inShard in *.
  destruct (NotAfterStart c) as [s|], (NotAfterLimit c) as [l|].
  - destruct Hmid as (His & Hil & Hid).
    rewrite !ptypes_Timestamp_valid by assumption.
    rewrite !UnixNano_wrap, !instant_of_valid.
    rewrite (wrap64_id (tsInstant s)), (wrap64_id (tsInstant l)) by assumption.
    destruct (midpoint_exact _ _ His Hil Hid) as [-> Hin].
    destruct (Unix_0_instant _ Hin) as [_ Hinst].
    intros [= <-]. rewrite Hinst.
    pose proof (Z.quot_rem' (tsInstant l - tsInstant s) 2) as Hqr.
    pose proof (Z.rem_bound_pos (tsInstant l - tsInstant s) 2 ltac:(lia) ltac:(lia)).
    lia.
  - rewrite ptypes_Timestamp_valid by assumption.
    pose proof (valid_bound_range s Hvs) as [Hsec Hnan].
    rewrite Add_24h; cbn [sec nsec];
      [|lia|unfold in_int64; rewrite unixToInternal_eq; lia].
    intros [= <-]. split; [|exact I].
    unfold instant, tsInstant; cbn [sec nsec]. lia.
  - rewrite ptypes_Timestamp_valid by assumption.
    pose proof (valid_bound_range l Hvl) as [Hsec Hnan].
    rewrite Add_minus_1h; cbn [sec nsec];
      [|lia|unfold in_int64; rewrite unixToInternal_eq; lia].
    intros [= <-]. split; [exact I|].
    unfold instant, tsInstant; cbn [sec nsec]. lia.
  - intros _. split; exact I.
Qed.

(** The one-second shard [2017-11-26T12:29:19Z, +1s): the time returned
    is half a second after the start. *)
Lemma notAfterForLog_within_shard_witness :
  let c := Fixture.shardLog "second"
             (Some (mkTimestamp 1511699359 0)) (Some (mkTimestamp 1511699360 0)) in
  inShard c (instant (Unix 1511699359 500000000)).
Proof.
  intros c.
  apply (notAfterForLog_within_shard (Fixture.date 2017 11 26 12 29 19) c
           (Unix 1511699359 500000000)).
  - by_evaluation.
  - by_evaluation.
  - by_evaluation.
  - reflexivity.
Defined.

(** ** Runs that get through the launch phase *)

Section Success.

Context (W : World).

Lemma notAfterForLog_returns now c :
  validBounds c -> exists t, notAfterForLog now c = Ok t.
Proof.
  unfold notAfterForLog, validBounds, validBound, ptypes.Timestamp.
  intros [Hs Hl].
  destruct (NotAfterStart c) as [s|], (NotAfterLimit c) as [l|];
    rewrite ?Hs, ?Hl; eauto.
Qed.

Lemma httpServers_flagsAtBias f : httpServers (flagsAtBias f) = httpServers f.
Proof. unfold flagsAtBias. destruct (String.eqb (testDir f) ""); reflexivity. Qed.

Lemma mmd_flagsAtBias f : mmd (flagsAtBias f) = mmd f.
Proof. unfold flagsAtBias. destruct (String.eqb (testDir f) ""); reflexivity. Qed.

Lemma launched_setupEvents f : launched (setupEvents W f) = [].
Proof.
  unfold setupEvents, seedEvents, testDataEvents, metricsEvents, bannerEvents.
  destruct (String.eqb (testDir f) ""), (String.eqb (metricsEndpoint f) ""), (banner f);
    reflexivity.
Qed.

Lemma consulted_setupEvents f : consulted (setupEvents W f) = [].
Proof.
  unfold setupEvents, seedEvents, testDataEvents, metricsEvents, bannerEvents.
  destruct (String.eqb (testDir f) ""), (String.eqb (metricsEndpoint f) ""), (banner f);
    reflexivity.
Qed.

(** A loop in which every pool and generator can be built and every
    consulted shard bound is valid gets through every log. *)
Lemma launchAll_succeeds f lc sg ov b mf cfgs : forall i tr,
  (forall c, c ∈ cfgs -> NewRandomPoolErr W (httpServers f) (PublicKey c) (Prefix c) = None) ->
  (forall t, NewSyntheticChainGeneratorErr W lc sg t = None) ->
  (IsZero ov = true -> Forall validBounds cfgs) ->
  exists tr', launchAll W f lc sg ov b mf i cfgs tr = (Return tt, tr').
Proof.
  induction cfgs as [|c rest IH]; intros i tr Hpool Hgen Hvalid.
  - eexists. reflexivity.
  - rewrite launchAll_cons, launchLog_cases.
    rewrite (Hpool c) by (apply list_elem_of_here).
    assert (Hna : exists t, (if IsZero ov then notAfterForLog (clockAtLog W i) c else Ok ov) = Ok t).
    { destruct (IsZero ov); [|eauto].
      apply notAfterForLog_returns.
      specialize (Hvalid eq_refl). apply Forall_cons in Hvalid as [H _]. exact H. }
    destruct Hna as [t ->]. rewrite Hgen.
    apply IH; [| exact Hgen |].
    + intros c' Hc'. apply Hpool. apply list_elem_of_further, Hc'.
    + intros Hz. specialize (Hvalid Hz). apply Forall_cons in Hvalid as [_ H]. exact H.
Qed.

End Success.

(** X3.  A run with a log config, readable test data, a parsable
    override (or none), pools and generators that can be built, and valid
    shard bounds wherever they are consulted, gets through the launch
    phase: it returns the number of configured logs and has started
    exactly one worker per log, in the order of the config file. *)
Theorem well_formed_config_starts_every_worker (W : World) (f : Flags)
    (cfg : list LogConfig) (lc : list ASN1Cert) (sg : option Signer) (ov : Time) :
  logConfig f <> "" ->
  LogConfigFromFile W (logConfig f) = Ok cfg ->
  testDataOf W f = Return (lc, sg) ->
  overrideOf W f = Ok ov ->
  (forall c, c ∈ cfg -> NewRandomPoolErr W (httpServers f) (PublicKey c) (Prefix c) = None) ->
  (forall t, NewSyntheticChainGeneratorErr W lc sg t = None) ->
  (IsZero ov = true -> Forall validBounds cfg) ->
  exists tr,
    launchPhase W f [] = (Return (length cfg), tr) /\
    map LogCfg (launched tr) = cfg.
Proof.
  intros Hlc Hcfg Htd Hov Hpool Hgen Hvalid.
  rewrite launchPhase_cases.
  destruct (String.eqb_spec (logConfig f) ""); [contradiction|].
  rewrite Hcfg, Htd, Hov.
  destruct (launchAll_succeeds W (flagsAtBias f) lc sg ov (constructedBias W f)
              (metricFactoryOf f) cfg 0 (setupEvents W f)) as [tr Hrun];
    [rewrite httpServers_flagsAtBias; exact Hpool | exact Hgen | exact Hvalid |].
  rewrite Hrun. exists tr. split; [reflexivity|].
  apply launchAll_prefix in Hrun as (pre & rest & -> & Hl & ->).
  rewrite launched_setupEvents in Hl. rewrite app_nil_r. exact Hl.
Qed.

(** Three logs, one of them with shard bounds, no override. *)
Lemma well_formed_config_starts_every_worker_witness :
  let cfg := [Fixture.plainLog "A";
              Fixture.shardLog "B" (Some (mkTimestamp 1500000000 0))
                (Some (mkTimestamp 1600000000 0));
              Fixture.plainLog "C"] in
  let W := Fixture.world cfg [] in
  exists tr,
    launchPhase W Fixture.flags [] = (Return 3%nat, tr) /\
    map LogCfg (launched tr) = cfg.
Proof.
  intros cfg W.
  apply (well_formed_config_starts_every_worker W Fixture.flags cfg
           [[48; 130]; [48; 130]] (Some (mkSigner [48; 119])) zeroTime).
  - discriminate.
  - reflexivity.
  - reflexivity.
  - reflexivity.
  - reflexivity.
  - reflexivity.
  - intros _. repeat (apply Forall_cons; split; [by_evaluation|]). apply Forall_nil. exact I.
Defined.

(** X4.  Whenever the launch phase returns, it returns the number of
    logs of the config file, and the workers started are one per log,
    in the order of the file, each with the client pool made for its own
    log's public key and prefix. *)
Theorem returned_launch_has_one_worker_per_log (W : World) (f : Flags)
    (n : nat) (tr : list Event) :
  launchPhase W f [] = (Return n, tr) ->
  exists cfg,
    LogConfigFromFile W (logConfig f) = Ok cfg /\
    n = length cfg /\
    map LogCfg (launched tr) = cfg /\
    Forall (fun w => ClientPool_ w
                     = RandomPool (httpServers f) (PublicKey (LogCfg w)) (Prefix (LogCfg w)))
      (launched tr).
Proof.
  intros Hrun.
  destruct (one_worker_per_log W f n tr Hrun) as (cfg & Hcfg & Hn & Hl).
  exists cfg. repeat split; try assumption.
  replace tr with (launchPhase W f []).2 by (rewrite Hrun; reflexivity).
  apply launchPhase_workers. intros.
  cbn [ClientPool_ LogCfg workerConfig]. rewrite httpServers_flagsAtBias. reflexivity.
Qed.

Lemma returned_launch_has_one_worker_per_log_witness :
  let cfg := [Fixture.plainLog "A"; Fixture.plainLog "B"] in
  let W := Fixture.world cfg [] in
  let tr := (launchPhase W Fixture.flags []).2 in
  exists cfg',
    LogConfigFromFile W (logConfig Fixture.flags) = Ok cfg' /\
    2%nat = length cfg' /\
    map LogCfg (launched tr) = cfg' /\
    Forall (fun w => ClientPool_ w
                     = RandomPool (httpServers Fixture.flags) (PublicKey (LogCfg w))
                         (Prefix (LogCfg w)))
      (launched tr).
Proof.
  intros cfg W tr.
  apply (returned_launch_has_one_worker_per_log W Fixture.flags 2 tr).
  vm_compute. reflexivity.
Defined.

(** X6.  After the workers have been started, whatever results arrive
    (fewer than [2^63]): the failing logs are logged once each, in the
    order their results arrive; the run succeeds when there is none and
    otherwise exits on an error count equal to their number. *)
Theorem failures_logged_in_arrival_order (W : World) (f : Flags)
    (n : nat) (tr0 : list Event) (received : list WorkerResult) :
  launchPhase W f [] = (Return n, tr0) ->
  Z.of_nat (length received) < 2 ^ 63 ->
  reported (main W f received []).2 = failedPrefixes received /\
  (main W f received []).1
  = match failedPrefixes received with
    | [] => Return tt
    | ps => Exit (NonZeroErrorCount (Z.of_nat (length ps)))
    end.
Proof.
  intros Hrun Hlen. unfold main, bind. rewrite Hrun.
  destruct (collectPhase_spec n received tr0 Hlen) as (o & tr & -> & Hrep & Hok & Hko).
  cbn [fst snd]. split.
  - rewrite Hrep, (quiet_launchPhase W f [] _ _ Hrun). reflexivity.
  - destruct (failedPrefixes received) as [|p ps] eqn:Hf.
    + apply Hok, failedPrefixes_nil_iff, Hf.
    + apply Hko. intros Ho. apply Hok, failedPrefixes_nil_iff in Ho. congruence.
Qed.

(** Three logs; the results of C, B, A arrive in that order, those of C
    and A with an error: C is logged before A, and the count is 2. *)
Lemma failures_logged_in_arrival_order_witness :
  let W := Fixture.world
             [Fixture.plainLog "A"; Fixture.plainLog "B"; Fixture.plainLog "C"] ["A"; "C"] in
  let received := reverse (map (workerResult W) (launched (launchPhase W Fixture.flags []).2)) in
  reported (main W Fixture.flags received []).2 = ["C"; "A"] /\
  (main W Fixture.flags received []).1 = Exit (NonZeroErrorCount 2).
Proof.
  intros W received.
  apply (failures_logged_in_arrival_order W Fixture.flags 3
           (launchPhase W Fixture.flags []).2 received).
  - vm_compute. reflexivity.
  - vm_compute. reflexivity.
Defined.

(** X7.  The verdict does not depend on the order in which the workers'
    results arrive: two arrival orders of the same results (fewer than
    [2^63]) end the run the same way, with the same error count. *)
Theorem verdict_independent_of_arrival_order (W : World) (f : Flags)
    (received received' : list WorkerResult) :
  received ≡ₚ received' ->
  Z.of_nat (length received) < 2 ^ 63 ->
  (main W f received []).1 = (main W f received' []).1.
Proof.
  intros Hperm Hlen. unfold main, bind.
  destruct (launchPhase W f []) as [[n|x] tr0]; [|reflexivity].
  assert (Hlen' : Z.of_nat (length received') < 2 ^ 63) by (rewrite <- Hperm; exact Hlen).
  destruct (collectPhase_spec n received tr0 Hlen) as (o & tr & -> & _ & Hok & Hko).
  destruct (collectPhase_spec n received' tr0 Hlen') as (o' & tr' & -> & _ & Hok' & Hko').
  cbn [fst].
  pose proof (failedPrefixes_perm _ _ Hperm) as Hfp.
  destruct (failedPrefixes received) as [|p ps] eqn:Hf.
  - apply Permutation_nil_l in Hfp. symmetry in Hfp.
    assert (Ho : o = Return tt) by (apply Hok, failedPrefixes_nil_iff, Hf).
    assert (Ho' : o' = Return tt) by (apply Hok', failedPrefixes_nil_iff, Hfp).
    congruence.
  - assert (Hne : o <> Return tt).
    { intros Ho. apply Hok, failedPrefixes_nil_iff in Ho. congruence. }
    assert (Hne' : o' <> Return tt).
    { intros Ho. apply Hok', failedPrefixes_nil_iff in Ho.
      rewrite Ho in Hfp. apply Permutation_nil_r in Hfp. discriminate Hfp. }
    rewrite (Hko Hne), (Hko' Hne'). do 3 f_equal.
    apply Permutation_length, Hfp.
Qed.

Lemma verdict_independent_of_arrival_order_witness :
  let W := Fixture.world
             [Fixture.plainLog "A"; Fixture.plainLog "B"; Fixture.plainLog "C"] ["B"] in
  let rs := map (workerResult W) (launched (launchPhase W Fixture.flags []).2) in
  (main W Fixture.flags rs []).1 = (main W Fixture.flags (reverse rs) []).1.
Proof.
  intros W rs.
  apply (verdict_independent_of_arrival_order W Fixture.flags rs (reverse rs)).
  - symmetry. apply reverse_Permutation.
  - vm_compute. reflexivity.
Defined.

(** X8.  With an override that parses to a time other than the zero
    time, the shard bounds of the config are never validated: no run
    exits for a log's malformed bound. *)
Theorem override_masks_malformed_bounds (W : World) (f : Flags) (ov : Time) :
  overrideOf W f = Ok ov ->
  IsZero ov = false ->
  forall p e, (launchPhase W f []).1 <> Exit (DetermineNotAfterFailed p e).
Proof.
  intros Hov Hnz p e Hexit.
  destruct (launchPhase W f []) as [o tr] eqn:Hrun. cbn [fst] in Hexit. subst o.
  apply launchPhase_inv in Hrun
    as [(x & [= <-] & Hst & _)
       |(cfg & lc & sg & ov' & mf & tr0 & o' & _ & Hov' & _ & _ & Hloop & Ho)];
    [discriminate Hst|].
  rewrite Hov in Hov'. injection Hov' as <-.
  destruct o' as [u|x]; [discriminate Ho|]. injection Ho as <-.
  apply launchAll_prefix in Hloop as (pre & rest & _ & _ & _ & c & post & _ & Hx).
  destruct (Hx p e eq_refl) as (_ & Hz & _). congruence.
Qed.

(** The log with the negative Nanos in its start bound, and
    [--leaf_not_after=2017-11-26T12:29:19Z]. *)
Lemma override_masks_malformed_bounds_witness :
  let bad := Fixture.shardLog "bad" (Some (mkTimestamp 1500000000 (-1))) None in
  let W := Fixture.world [bad] [] in
  let f := withLeafNotAfter Fixture.flags "2017-11-26T12:29:19Z" in
  (launchPhase W f []).1
  <> Exit (DetermineNotAfterFailed "bad"
             (Errorf "failed to parse NotAfterStart"
                (ErrTimestampNanos (mkTimestamp 1500000000 (-1))))).
Proof.
  intros bad W f.
  apply (override_masks_malformed_bounds W f (Fixture.date 2017 11 26 12 29 19)).
  - reflexivity.
  - reflexivity.
Defined.

(** ** What every worker is started with *)

Section Workers.

Context (W : World).

Lemma launched_seedEvents f : launched (seedEvents W f) = [].
Proof. reflexivity. Qed.

Lemma launched_testDataEvents f : launched (testDataEvents f) = [].
Proof. unfold testDataEvents. destruct (String.eqb (testDir f) ""); reflexivity. Qed.

(** What holds of every worker configuration the loop can build from the
    flags, the loaded test data and the metric factory holds of every
    worker a run starts. *)
Lemma launchPhase_workers_full f (Q : HammerConfig -> Prop) :
  (forall lc sg ov i c t,
      testDataOf W f = Return (lc, sg) ->
      overrideOf W f = Ok ov ->
      (if IsZero ov then notAfterForLog (clockAtLog W i) c = Ok t else t = ov) ->
      Q (workerConfig (flagsAtBias f) c (metricFactoryOf f) (logMMD (flagsAtBias f) c)
           (SyntheticChainGenerator lc sg t)
           (RandomPool (httpServers (flagsAtBias f)) (PublicKey c) (Prefix c))
           (constructedBias W f))) ->
  Forall Q (launched (launchPhase W f []).2).
Proof.
  intros HQ. rewrite launchPhase_cases.
  destruct (String.eqb (logConfig f) ""); [apply Forall_nil; exact I|].
  destruct (LogConfigFromFile W (logConfig f)) as [cfg|e]; [|apply Forall_nil; exact I].
  destruct (testDataOf W f) as [[lc sg]|x] eqn:Htd; [|apply Forall_nil; exact I].
  destruct (overrideOf W f) as [ov|e] eqn:Hov.
  - destruct (launchAll W (flagsAtBias f) lc sg ov (constructedBias W f)
                (metricFactoryOf f) 0 cfg (setupEvents W f)) as [o tr] eqn:Hloop.
    cbn [snd].
    eapply launchAll_workers in Hloop; [exact Hloop| |].
    + intros i c t Ht. cbv beta. eapply HQ; eauto.
    + rewrite launched_setupEvents. apply Forall_nil. exact I.
  - cbn [snd]. rewrite launched_app, launched_seedEvents, launched_testDataEvents.
    apply Forall_nil. exact I.
Qed.

Lemma flagsAtBias_copied f :
  minGetEntries (flagsAtBias f) = minGetEntries f /\
  maxGetEntries (flagsAtBias f) = maxGetEntries f /\
  oversizedGetEntries (flagsAtBias f) = oversizedGetEntries f /\
  operations (flagsAtBias f) = operations f /\
  maxParallelChains (flagsAtBias f) = maxParallelChains f /\
  ignoreErrors (flagsAtBias f) = ignoreErrors f /\
  maxRetry (flagsAtBias f) = maxRetry f.
Proof.
  unfold flagsAtBias. destruct (String.eqb (testDir f) ""); repeat split.
Qed.

End Workers.

(** X9.  Every worker a run starts gets the parameters of the command
    line as they are: the one bias table built from the flags, the metric
    factory chosen by the metrics endpoint, the get-entries bounds, the
    operation count, the chain parallelism and the error policy; clearing
    the add biases for want of test data changes none of them. *)
Theorem workers_share_flag_parameters (W : World) (f : Flags) :
  Forall (fun w =>
            EPBias w = constructedBias W f /\
            MetricFactory_ w = metricFactoryOf f /\
            MinGetEntries w = minGetEntries f /\
            MaxGetEntries w = maxGetEntries f /\
            OversizedGetEntries w = oversizedGetEntries f /\
            Operations w = operations f /\
            MaxParallelChains w = maxParallelChains f /\
            IgnoreErrors w = ignoreErrors f /\
            MaxRetryDuration w = maxRetry f)
    (launched (launchPhase W f []).2).
Proof.
  apply launchPhase_workers_full. intros.
  cbn [EPBias MetricFactory_ MinGetEntries MaxGetEntries OversizedGetEntries Operations
       MaxParallelChains IgnoreErrors MaxRetryDuration workerConfig].
  destruct (flagsAtBias_copied f) as (-> & -> & -> & -> & -> & -> & ->).
  repeat split.
Qed.

(** A loop whose generator constructor refuses every call starts no
    worker. *)
Lemma launchAll_no_generator (W : World) f lc sg ov b mf cfgs : forall i tr o tr',
  (forall t, NewSyntheticChainGeneratorErr W lc sg t <> None) ->
  launchAll W f lc sg ov b mf i cfgs tr = (o, tr') ->
  launched tr' = launched tr.
Proof.
  induction cfgs as [|c rest IH]; intros i tr o tr' Hgen Hrun.
  - cbn in Hrun. injection Hrun as <- <-. reflexivity.
  - rewrite launchAll_cons, launchLog_cases in Hrun.
    destruct (NewRandomPoolErr W (httpServers f) (PublicKey c) (Prefix c)) as [e|].
    { injection Hrun as <- <-. reflexivity. }
    destruct (if IsZero ov then notAfterForLog (clockAtLog W i) c else Ok ov) as [t|e].
    + destruct (NewSyntheticChainGeneratorErr W lc sg t) as [e|] eqn:Hg.
      * injection Hrun as <- <-. rewrite launched_app.
        destruct (IsZero ov); apply app_nil_r.
      * exfalso. exact (Hgen t Hg).
    + injection Hrun as <- <-. rewrite launched_app.
      destruct (IsZero ov); apply app_nil_r.
Qed.

(** X10.  A worker's chain generator is made from the chain and the
    signer loaded from the test data directory.  With no test data
    directory the constructor is given the nil chain and the nil signer:
    if it refuses them, as [integration.NewSyntheticChainGenerator]
    refuses a chain of fewer than two certificates, the run starts no
    worker at all. *)
Theorem generator_built_from_test_data (W : World) (f : Flags) :
  Forall (fun w => exists lc sg t,
              testDataOf W f = Return (lc, sg) /\
              ChainGenerator_ w = SyntheticChainGenerator lc sg t)
    (launched (launchPhase W f []).2) /\
  (testDir f = "" ->
   (forall t, NewSyntheticChainGeneratorErr W [] None t <> None) ->
   launched (launchPhase W f []).2 = []).
Proof.
  split.
  - apply launchPhase_workers_full. intros lc sg ov i c t Htd _ _.
    exists lc, sg, t. split; [exact Htd | reflexivity].
  - intros Hdir Hgen. rewrite launchPhase_cases.
    destruct (String.eqb (logConfig f) ""); [reflexivity|].
    destruct (LogConfigFromFile W (logConfig f)) as [cfg|e]; [|reflexivity].
    assert (Htd : testDataOf W f = Return ([], None)).
    { unfold testDataOf. rewrite Hdir. reflexivity. }
    rewrite Htd.
    destruct (overrideOf W f) as [ov|e].
    + destruct (launchAll W (flagsAtBias f) [] None ov (constructedBias W f)
                  (metricFactoryOf f) 0 cfg (setupEvents W f)) as [o tr] eqn:Hloop.
      cbn [snd].
      apply launchAll_no_generator in Hloop; [|exact Hgen].
      rewrite Hloop. apply launched_setupEvents.
    + cbn [snd launched]. apply launched_testDataEvents.
Qed.

(** Two logs.  With the test data directory both workers are started,
    each with a generator made from the loaded chain and signer; with
    [--testdata_dir=] none is started. *)
Lemma generator_built_from_test_data_witness :
  let W := Fixture.world [Fixture.plainLog "A"; Fixture.plainLog "B"] [] in
  length (launched (launchPhase W Fixture.flags []).2) = 2%nat /\
  Forall (fun w => exists lc sg t,
              testDataOf W Fixture.flags = Return (lc, sg) /\
              ChainGenerator_ w = SyntheticChainGenerator lc sg t)
    (launched (launchPhase W Fixture.flags []).2) /\
  launched (launchPhase W (withTestDir Fixture.flags "") []).2 = [].
Proof.
  intros W. split; [vm_compute; reflexivity|]. split.
  - exact (proj1 (generator_built_from_test_data W Fixture.flags)).
  - apply (proj2 (generator_built_from_test_data W (withTestDir Fixture.flags ""))).
    + reflexivity.
    + intros t. discriminate.
Defined.

(** X11.  A worker's MMD is the [--mmd] flag when its log has no expected
    merge delay, and otherwise the log's expected merge delay in seconds,
    exactly, for every [int32] value (a negative one included): the
    product with [time.Second] does not leave [int64]. *)
Theorem worker_mmd (W : World) (f : Flags) :
  Forall (fun w =>
            let emd := ExpectedMergeDelaySec (LogCfg w) in
            (emd = 0 -> MMD w = mmd f) /\
            (emd <> 0 -> - 2 ^ 31 <= emd < 2 ^ 31 -> MMD w = emd * Second))
    (launched (launchPhase W f []).2).
Proof.
  apply launchPhase_workers_full. intros lc sg ov i c t _ _ _.
  cbv beta zeta. cbn [MMD LogCfg workerConfig]. unfold logMMD. rewrite mmd_flagsAtBias.
  split.
  - intros Heq. rewrite Heq. reflexivity.
  - intros Hne Hrange.
    destruct (ExpectedMergeDelaySec c =? 0) eqn:Heq; [zbool; contradiction|].
    rewrite wrap64_id by (unfold in_int64, Second; lia). lia.
Qed.

(** X12.  A rate limit that is zero or negative leaves every worker
    without a limiter. *)
Theorem nonpositive_rate_limit_disables_limiting (W : World) (f : Flags) :
  limit f <= 0 ->
  newLimiter (limit f) = None /\
  Forall (fun w => Limiter_ w = None) (launched (launchPhase W f []).2).
Proof.
  intros Hle.
  assert (Hnil : newLimiter (limit f) = None).
  { unfold newLimiter. destruct (limit f <=? 0) eqn:H; [reflexivity | zbool; lia]. }
  split; [exact Hnil|].
  apply launchPhase_workers_full. intros.
  cbn [Limiter_ workerConfig]. rewrite limit_flagsAtBias. exact Hnil.
Qed.

Lemma nonpositive_rate_limit_disables_limiting_witness :
  let W := Fixture.world [Fixture.plainLog "A"; Fixture.plainLog "B"] [] in
  let f := withLimit Fixture.flags (-5) in
  newLimiter (limit f) = None /\
  Forall (fun w => Limiter_ w = None) (launched (launchPhase W f []).2).
Proof.
  intros W f.
  apply (nonpositive_rate_limit_disables_limiting W f).
  by_evaluation.
Defined.

(** ** The order of events *)

Section Order.

Context (W : World).



(** The loop over a concatenation: the loop over the first part, then,
    if it got through, the loop over the second from where it stopped. *)
Lemma launchAll_app f lc sg ov b mf xs ys : forall i tr,
  launchAll W f lc sg ov b mf i (xs ++ ys) tr =
    match launchAll W f lc sg ov b mf i xs tr with
    | (Return _, tr1) => launchAll W f lc sg ov b mf (i + length xs) ys tr1
    | (Exit x, tr1) => (Exit x, tr1)
    end.
Proof.
  induction xs as [|c xs IH]; intros i tr.
  - cbn [app launchAll ret length]. rewrite Nat.add_0_r. reflexivity.
  - cbn [app]. rewrite !launchAll_cons.
    destruct (launchLog W f lc sg ov b mf i c tr) as [[u|x] tr1]; [|reflexivity].
    rewrite IH. cbn [length].
    replace (S i + length xs)%nat with (i + S (length xs))%nat by lia. reflexivity.
Qed.

End Order.



(** X14.  In a run that reaches the loop over the logs, the whole set-up
    lies before the first worker: the seeding, the warning that add-chain
    operations are disabled, the start of the metrics server and the
    banner come first, in that order, and after them come only calls of
    [notAfterForLog] and [go] statements. *)
Theorem setup_precedes_workers (W : World) (f : Flags) (o : Outcome nat) (tr : list Event) :
  launchPhase W f [] = (o, tr) ->
  (forall x, o = Exit x -> stage x = InLoop) ->
  exists d, tr = setupEvents W f ++ d /\ Forall loopEvent d.
Proof.
  rewrite launchPhase_cases. intros Hrun Hstage.
  destruct (String.eqb (logConfig f) "").
  { injection Hrun as <- <-. specialize (Hstage _ eq_refl). discriminate Hstage. }
  destruct (LogConfigFromFile W (logConfig f)) as [cfg|e].
  2:{ injection Hrun as <- <-. specialize (Hstage _ eq_refl). discriminate Hstage. }
  destruct (testDataOf W f) as [[lc sg]|x] eqn:Htd.
  2:{ injection Hrun as <- <-. specialize (Hstage _ eq_refl).
      unfold testDataOf in Htd.
      destruct (String.eqb (testDir f) ""); [discriminate Htd|].
      destruct (GetChain W (testDir f) "leaf01.chain"); [|injection Htd as <-; discriminate Hstage].
      destruct (MakeSigner W (testDir f)); [discriminate Htd|].
      injection Htd as <-. discriminate Hstage. }
  destruct (overrideOf W f) as [ov|e].
  2:{ injection Hrun as <- <-. specialize (Hstage _ eq_refl). discriminate Hstage. }
  destruct (launchAll W (flagsAtBias f) lc sg ov (constructedBias W f)
              (metricFactoryOf f) 0 cfg (setupEvents W f)) as [o' tr'] eqn:Hloop.
  injection Hrun as _ <-.
  apply launchAll_events in Hloop. exact Hloop.
Qed.

(** A run with two logs that gets through the loop. *)
Lemma setup_precedes_workers_witness :
  let W := Fixture.world [Fixture.plainLog "A"; Fixture.plainLog "B"] [] in
  exists d,
    (launchPhase W Fixture.flags []).2 = setupEvents W Fixture.flags ++ d /\
    Forall loopEvent d.
Proof.
  intros W.
  apply (setup_precedes_workers W Fixture.flags (Return 2%nat)
           (launchPhase W Fixture.flags []).2).
  - vm_compute. reflexivity.
  - intros x Hx. discriminate Hx.
Defined.

(** X15.  If every log before log [c] of the config can be prepared and
    the shard bounds of [c] are malformed, a run without override exits
    for [c], naming its prefix and the bound's error, after having
    started the workers of exactly the logs before [c] and having called
    [notAfterForLog] for them and for [c]; the logs after [c] are not
    looked at. *)
Theorem malformed_bound_exits_at_its_log (W : World) (f : Flags)
    (pre post : list LogConfig) (c : LogConfig)
    (lc : list ASN1Cert) (sg : option Signer) (ov : Time) (e : error) :
  logConfig f <> "" ->
  LogConfigFromFile W (logConfig f) = Ok (pre ++ c :: post) ->
  testDataOf W f = Return (lc, sg) ->
  overrideOf W f = Ok ov ->
  IsZero ov = true ->
  (forall c', c' ∈ pre ++ [c] ->
              NewRandomPoolErr W (httpServers f) (PublicKey c') (Prefix c') = None) ->
  (forall t, NewSyntheticChainGeneratorErr W lc sg t = None) ->
  Forall validBounds pre ->
  notAfterForLog (clockAtLog W (length pre)) c = Err e ->
  exists tr,
    launchPhase W f [] = (Exit (DetermineNotAfterFailed (Prefix c) e), tr) /\
    map LogCfg (launched tr) = pre /\
    consulted tr = pre ++ [c].
Proof.
  intros Hlc Hcfg Htd Hov Hz Hpool Hgen Hvalid Hbad.
  rewrite launchPhase_cases.
  destruct (String.eqb_spec (logConfig f) ""); [contradiction|].
  rewrite Hcfg, Htd, Hov, launchAll_app.
  destruct (launchAll_succeeds W (flagsAtBias f) lc sg ov (constructedBias W f)
              (metricFactoryOf f) pre 0 (setupEvents W f)) as [tr1 Hpre].
  { intros c' Hc'. rewrite httpServers_flagsAtBias. apply Hpool.
    apply elem_of_app. left. exact Hc'. }
  { exact Hgen. }
  { intros _. exact Hvalid. }
  rewrite Hpre. cbn [Nat.add].
  rewrite launchAll_cons, launchLog_cases, Hz, Hbad.
  rewrite httpServers_flagsAtBias, (Hpool c)
    by (apply elem_of_app; right; apply list_elem_of_here).
  eexists. split; [reflexivity|].
  pose proof Hpre as Hcons.
  apply launchAll_consulted in Hcons; [|exact Hz].
  apply launchAll_prefix in Hpre as (pre' & rest & Heq & Hl & ->).
  rewrite app_nil_r in Heq. subst pre'.
  rewrite launched_setupEvents in Hl. cbn [map app] in Hl.
  rewrite consulted_setupEvents in Hcons. cbn [app] in Hcons.
  trace_simpl. rewrite Hl, Hcons. split; reflexivity.
Qed.

(** The two logs of the earlier example: the good one, then the one with
    a negative Nanos. *)
Lemma malformed_bound_exits_at_its_log_witness :
  let good := Fixture.plainLog "good" in
  let bad := Fixture.shardLog "bad" (Some (mkTimestamp 1500000000 (-1))) None in
  let W := Fixture.world [good; bad] [] in
  exists tr,
    launchPhase W Fixture.flags []
    = (Exit (DetermineNotAfterFailed "bad"
               (Errorf "failed to parse NotAfterStart"
                  (ErrTimestampNanos (mkTimestamp 1500000000 (-1))))), tr) /\
    map LogCfg (launched tr) = [good] /\
    consulted tr = [good; bad].
Proof.
  intros good bad W.
  apply (malformed_bound_exits_at_its_log W Fixture.flags [good] [] bad
           [[48; 130]; [48; 130]] (Some (mkSigner [48; 119])) zeroTime).
  - discriminate.
  - reflexivity.
  - reflexivity.
  - reflexivity.
  - reflexivity.
  - reflexivity.
  - reflexivity.
  - apply Forall_cons. split; [by_evaluation | apply Forall_nil; exact I].
  - reflexivity.
Defined.

(** ** Exits before the loop, and the weights *)

(** X16.  Each exit before the loop is taken for its own cause only: no
    log config flag; a log config that cannot be read; with a test data
    directory, a chain or a signer that cannot be loaded; a non-empty
    override that does not parse.  The later checks are reached only when
    the earlier ones have passed, and no worker has been started. *)
Theorem before_loop_exit_causes (W : World) (f : Flags) (x : Fatal) (tr : list Event) :
  launchPhase W f [] = (Exit x, tr) ->
  stage x = BeforeLoop ->
  launched tr = [] /\
  match x with
  | NoLogConfig => logConfig f = ""
  | ReadLogConfigFailed e =>
      logConfig f <> "" /\ LogConfigFromFile W (logConfig f) = Err e
  | LoadCertificateFailed e =>
      (exists cfg, LogConfigFromFile W (logConfig f) = Ok cfg) /\
      testDir f <> "" /\ GetChain W (testDir f) "leaf01.chain" = Err e
  | RetrieveSignerFailed e =>
      (exists cfg, LogConfigFromFile W (logConfig f) = Ok cfg) /\
      testDir f <> "" /\
      (exists lc, GetChain W (testDir f) "leaf01.chain" = Ok lc) /\
      MakeSigner W (testDir f) = Err e
  | ParseLeafNotAfterFailed e =>
      (exists cfg, LogConfigFromFile W (logConfig f) = Ok cfg) /\
      (exists td, testDataOf W f = Return td) /\
      leafNotAfter f <> "" /\ parseRFC3339 W (leafNotAfter f) = Err e
  | _ => True
  end.
Proof.
  rewrite launchPhase_cases. intros Hrun Hstage.
  destruct (String.eqb_spec (logConfig f) "") as [Hlc|Hlc].
  { injection Hrun as <- <-. auto. }
  destruct (LogConfigFromFile W (logConfig f)) as [cfg|e] eqn:Hcfg.
  2:{ injection Hrun as <- <-. auto. }
  destruct (testDataOf W f) as [[lc sg]|y] eqn:Htd.
  2:{ injection Hrun as <- <-. split; [reflexivity|].
      unfold testDataOf in Htd.
      destruct (String.eqb_spec (testDir f) "") as [Hdir|Hdir]; [discriminate Htd|].
      destruct (GetChain W (testDir f) "leaf01.chain") as [lc|e] eqn:Hchain.
      - destruct (MakeSigner W (testDir f)) as [sg|e] eqn:Hsg; [discriminate Htd|].
        injection Htd as <-. eauto 10.
      - injection Htd as <-. eauto 10. }
  destruct (overrideOf W f) as [ov|e] eqn:Hov.
  - destruct (launchAll W (flagsAtBias f) lc sg ov (constructedBias W f)
                (metricFactoryOf f) 0 cfg (setupEvents W f)) as [[u|y] tr'] eqn:Hloop;
      [discriminate Hrun|].
    injection Hrun as <- <-.
    apply launchAll_prefix in Hloop as (_ & _ & _ & _ & Hst & _). congruence.
  - injection Hrun as <- <-. split.
    { cbn [launched]. apply launched_testDataEvents. }
    unfold overrideOf in Hov.
    destruct (String.eqb_spec (leafNotAfter f) "") as [Hl|Hl]; [discriminate Hov|].
    eauto 10.
Qed.

(** [--leaf_not_after=tomorrow]: the exit is for the override, and the
    log config and the test data have been read. *)
Lemma before_loop_exit_causes_witness :
  let W := Fixture.world [Fixture.plainLog "A"] [] in
  let f := withLeafNotAfter Fixture.flags "tomorrow" in
  launched (launchPhase W f []).2 = [] /\
  (exists cfg, LogConfigFromFile W (logConfig f) = Ok cfg) /\
  (exists td, testDataOf W f = Return td) /\
  leafNotAfter f <> "" /\
  parseRFC3339 W (leafNotAfter f) = Err (ErrOther "parsing time: cannot parse").
Proof.
  intros W f.
  apply (before_loop_exit_causes W f
           (ParseLeafNotAfterFailed (ErrOther "parsing time: cannot parse"))
           (launchPhase W f []).2).
  - vm_compute. reflexivity.
  - reflexivity.
Defined.

Section TableKeys.

Context (W : World).

Lemma get_weights_flagsAtBias f :
  getSTHBias (flagsAtBias f) = getSTHBias f /\
  getSTHConsistencyBias (flagsAtBias f) = getSTHConsistencyBias f /\
  getProofByHashBias (flagsAtBias f) = getProofByHashBias f /\
  getEntriesBias (flagsAtBias f) = getEntriesBias f /\
  getRootsBias (flagsAtBias f) = getRootsBias f /\
  getEntryAndProofBias (flagsAtBias f) = getEntryAndProofBias f.
Proof.
  unfold flagsAtBias. destruct (String.eqb (testDir f) ""); repeat split.
Qed.

Lemma Bias_no_other_key f k :
  k ∉ all_names (names W) -> Bias (biasTable W f) !! k = None.
Proof.
  intros Hk. rewrite <- Bias_keys. apply not_elem_of_list_to_map_1. exact Hk.
Qed.

Lemma InvalidChance_no_other_key f k :
  k ∉ all_names (names W) -> InvalidChance (biasTable W f) !! k = None.
Proof.
  intros Hk. unfold biasTable. cbn [InvalidChance].
  apply not_elem_of_list_to_map_1. exact Hk.
Qed.

End TableKeys.

(** X17.  The weights reach the table as given: the six get weights
    always, the two add weights whenever there is a test data directory;
    and neither map of the table has a key besides the eight kinds. *)
Theorem weights_as_given (W : World) (f : Flags) :
  distinct_names (names W) ->
  let E := names W in
  let b := constructedBias W f in
  (Bias b !! GetSTHName E = Some (getSTHBias f) /\
   Bias b !! GetSTHConsistencyName E = Some (getSTHConsistencyBias f) /\
   Bias b !! GetProofByHashName E = Some (getProofByHashBias f) /\
   Bias b !! GetEntriesName E = Some (getEntriesBias f) /\
   Bias b !! GetRootsName E = Some (getRootsBias f) /\
   Bias b !! GetEntryAndProofName E = Some (getEntryAndProofBias f)) /\
  (testDir f <> "" ->
   Bias b !! AddChainName E = Some (addChainBias f) /\
   Bias b !! AddPreChainName E = Some (addPreChainBias f)) /\
  (forall k, k ∉ all_names E -> Bias b !! k = None /\ InvalidChance b !! k = None).
Proof.
  intros Hd E b. subst E b. unfold constructedBias. split; [|split].
  - destruct (get_weights_flagsAtBias f) as (H1 & H2 & H3 & H4 & H5 & H6).
    rewrite <- H1, <- H2, <- H3, <- H4, <- H5, <- H6.
    repeat split; apply Bias_lookup; try exact Hd; rewrite !elem_of_cons; auto 10.
  - intros Hdir. unfold flagsAtBias.
    destruct (String.eqb_spec (testDir f) ""); [contradiction|].
    split; apply Bias_lookup; try exact Hd; rewrite !elem_of_cons; auto 10.
  - intros k Hk. split; [apply Bias_no_other_key | apply InvalidChance_no_other_key];
      exact Hk.
Qed.

(** The default weights, with the names of package [ctfe]. *)
Lemma weights_as_given_witness :
  let W := Fixture.world [Fixture.plainLog "A"] [] in
  let b := constructedBias W Fixture.flags in
  (Bias b !! "GetSTH" = Some 2 /\
   Bias b !! "GetSTHConsistency" = Some 2 /\
   Bias b !! "GetProofByHash" = Some 2 /\
   Bias b !! "GetEntries" = Some 2 /\
   Bias b !! "GetRoots" = Some 1 /\
   Bias b !! "GetEntryAndProof" = Some 0) /\
  (Bias b !! "AddChain" = Some 20 /\ Bias b !! "AddPreChain" = Some 20) /\
  (forall k, k ∉ all_names Fixture.ctfeNames ->
             Bias b !! k = None /\ InvalidChance b !! k = None).
Proof.
  intros W b.
  destruct (weights_as_given W Fixture.flags distinct_ctfeNames) as (Hget & Hadd & Hnone).
  split; [exact Hget|]. split; [apply Hadd; discriminate | exact Hnone].
Defined.
